(** * The financial core of the brokerage backend ([src/app.js])

    A shallow embedding of the four ledger operations of [src/app.js]:

    - [POST /jobs/:job_id/pay]          (payment of a job),
    - [POST /balances/deposit/:userId]  (capped deposit),
    - [GET  /admin/best-profession]     (report),
    - [GET  /admin/best-clients]        (report),

    together with the part of the store (Sequelize over a relational
    database) that they talk to.  The three tables are finite maps from the
    primary key to the row; a handler is a computation in a small state and
    exception monad over the store; [sequelize.transaction] restores the
    tables when its callback throws.

    Money.  JavaScript numbers are binary64 values, and the handlers that
    compute with money are given twice.  The embedding that comes first
    keeps amounts as rationals ([Qc]); it carries the properties that move
    rows and compare stored amounts, which do not depend on how a result
    is rounded.  Module [Binary64] gives payment and deposit over binary64
    amounts with the arithmetic of [PrimFloat]; every property that states
    the result of an addition, a subtraction or a sum is proved there.

    Time.  Timestamps are kept the way the store keeps and compares them,
    as text in a format whose lexicographic order is the order of time;
    [BETWEEN] is inclusive on both sides. *)

From Stdlib Require Import QArith Qcanon.
From Stdlib Require Import PrimFloat FloatOps.
From stdpp Require Import gmap strings list fin_maps numbers sorting.

Local Open Scope Qc_scope.

Set Warnings "-inexact-float".

(** ** Data model *)

(** [type] is one of the strings ['client'] and ['contractor']. *)
Inductive ProfileType := type_client | type_contractor.

Record Profile := mkProfile {
  firstName : string;
  lastName : string;
  profession : string;
  balance : Qc;
  type : ProfileType
}.

Inductive ContractStatus := new | in_progress | terminated.

Record Contract := mkContract {
  terms : string;
  status : ContractStatus;
  createdAt : string;
  ClientId : Z;
  ContractorId : Z
}.

Record Job := mkJob {
  description : string;
  price : Qc;
  paid : bool;
  paymentDate : option string;
  ContractId : Z
}.

(** The three tables, keyed by the primary key [id]. *)
Record Ledger := mkLedger {
  profiles : gmap Z Profile;
  contracts : gmap Z Contract;
  jobs : gmap Z Job
}.

(** Field assignments on rows ([row.field = v] in the source). *)
Definition set_balance (b : Qc) (p : Profile) : Profile :=
  mkProfile (firstName p) (lastName p) (profession p) b (type p).

Definition set_paid (b : bool) (j : Job) : Job :=
  mkJob (description j) (price j) b (paymentDate j) (ContractId j).

Definition set_paymentDate (d : option string) (j : Job) : Job :=
  mkJob (description j) (price j) (paid j) d (ContractId j).

Definition set_profiles (ps : gmap Z Profile) (l : Ledger) : Ledger :=
  mkLedger ps (contracts l) (jobs l).

Definition set_jobs (js : gmap Z Job) (l : Ledger) : Ledger :=
  mkLedger (profiles l) (contracts l) js.

(** A model instance as Sequelize hands it out: the primary key and a
    private copy of the row.  Two [findByPk] calls on one key give two
    instances that do not share their fields. *)
Record Instance (A : Type) := mkInstance { pk : Z; dataValues : A }.
Arguments mkInstance {A} _ _.
Arguments pk {A} _.
Arguments dataValues {A} _.

(** A [Job] loaded with [include: [Contract]]: the row and the joined
    contract, [None] when the join finds none. *)
Record JobWithContract := mkJobWithContract {
  jobRow : Job;
  jobContract : option Contract
}.

(** ** Exceptions, the statement log and the store monad *)

(** [Error msg] is [new Error(msg)]; [TypeError prop] is what reading
    property [prop] of [null] or [undefined] throws. *)
Inductive Exn :=
| Error (message : string)
| TypeError (prop : string).

Definition exn_message (e : Exn) : string :=
  match e with
  | Error m => m
  | TypeError p => "Cannot read properties of null (reading '" +:+ p +:+ "')"
  end.

(** The statements a handler sends to the store, in the order of issue. *)
Inductive Statement :=
| SelectJob (job_id : Z)
| SelectProfile (id : Z)
| SumOutstanding (userId : Z)
| UpdateProfile (id : Z)
| UpdateJob (id : Z)
| SelectBestProfession (start end_ : string)
| SelectBestClients (start end_ : string) (queryLimit : option Z).

Record Store := mkStore {
  ledger : Ledger;
  issued : list Statement
}.

Definition DB (A : Type) : Type := Store → (Exn + A) * Store.

Definition ret {A} (a : A) : DB A := λ s, (inr a, s).

Definition bind {A B} (m : DB A) (k : A → DB B) : DB B :=
  λ s, match m s with
       | (inl e, s') => (inl e, s')
       | (inr a, s') => k a s'
       end.

Definition throw {A} (e : Exn) : DB A := λ s, (inl e, s).

Notation "'let*' x := m 'in' k" := (bind m (λ x, k))
  (at level 10, x name, m at level 100, k at level 200).
Notation "m ;;; k" := (bind m (λ _, k))
  (at level 100, k at level 200, right associativity).

(** A read: the statement is logged and answered from the tables. *)
Definition select {A} (q : Statement) (f : Ledger → A) : DB A :=
  λ s, (inr (f (ledger s)), mkStore (ledger s) (issued s ++ [q])).

(** A write: the statement is logged and the tables are replaced. *)
Definition update (q : Statement) (f : Ledger → Ledger) : DB unit :=
  λ s, (inr tt, mkStore (f (ledger s)) (issued s ++ [q])).

(** [sequelize.transaction(async t => body)]: commit when [body] returns,
    roll the tables back and rethrow when it throws. *)
Definition transaction {A} (body : DB A) : DB A :=
  λ s, match body s with
       | (inl e, s') => (inl e, mkStore (ledger s) (issued s'))
       | (inr a, s') => (inr a, s')
       end.

Definition try_catch {A} (body : DB A) (handler : Exn → DB A) : DB A :=
  λ s, match body s with
       | (inl e, s') => handler e s'
       | (inr a, s') => (inr a, s')
       end.

(** ** The model layer: the Sequelize calls the handlers make *)

(** [Job.findByPk(job_id, { include: [Contract] })] *)
Definition Job_findByPk (job_id : Z) : DB (option (Instance JobWithContract)) :=
  select (SelectJob job_id) (λ l,
    (λ j, mkInstance job_id (mkJobWithContract j (contracts l !! ContractId j)))
      <$> jobs l !! job_id).

(** [Profile.findByPk(id)] *)
Definition Profile_findByPk (id : Z) : DB (option (Instance Profile)) :=
  select (SelectProfile id) (λ l, mkInstance id <$> profiles l !! id).

(** [instance.save()] on a profile whose [balance] was assigned: the row
    with the instance's key gets the instance's balance. *)
Definition Profile_save (inst : Instance Profile) : DB unit :=
  update (UpdateProfile (pk inst)) (λ l,
    set_profiles (alter (set_balance (balance (dataValues inst))) (pk inst) (profiles l)) l).

(** [instance.save()] on a job whose [paid] and [paymentDate] were assigned. *)
Definition Job_save (inst : Instance JobWithContract) : DB unit :=
  update (UpdateJob (pk inst)) (λ l,
    set_jobs (alter (λ j, set_paymentDate (paymentDate (jobRow (dataValues inst)))
                            (set_paid (paid (jobRow (dataValues inst))) j))
                    (pk inst) (jobs l)) l).

(** [Promise.all([a, b, c])] inside one transaction: the three statements
    reach the single connection in the order of the array. *)
Definition Promise_all (ms : list (DB unit)) : DB unit :=
  foldr (λ m k, m ;;; k) (ret tt) ms.

Definition sumQc (xs : list Qc) : Qc := foldr Qcplus 0 xs.

(** The rows [Job.sum('price', { where: { paid: false,
    '$Contract.ClientId$': userId }, include: [Contract] })] adds up. *)
Definition outstanding_jobs (userId : Z) (l : Ledger) : list Job :=
  filter (λ j, paid j = false ∧ ClientId <$> contracts l !! ContractId j = Some userId)
         (map_to_list (jobs l)).*2.

(** SQL [SUM] over no row is [NULL]; Sequelize hands it on as [null]. *)
Definition Job_sum_price (userId : Z) : DB (option Qc) :=
  select (SumOutstanding userId) (λ l,
    match outstanding_jobs userId l with
    | [] => None
    | js => Some (sumQc (price <$> js))
    end).

(** [x * y] where [y] may be [null]: [ToNumber(null)] is [0]. *)
Definition mul_nullable (x : Qc) (y : option Qc) : Qc := x * default 0 y.

(** ** Requests and responses *)

Record Params := mkParams { job_id : Z; userId : Z }.

Record QueryString := mkQueryString {
  start : option string;
  end_ : option string;
  limit : option string
}.

(** The body is typed as the interface table of the specification types
    it: [depositAmount] is a number. *)
Record Body := mkBody { depositAmount : Qc }.

(** [caller] is the identity the authentication collaborator resolves for
    the request; [profile] is [req.profile], which only the middleware
    [getProfile] sets. *)
Record Request := mkRequest {
  caller : Instance Profile;
  profile : option (Instance Profile);
  params : Params;
  query : QueryString;
  body : Body
}.

(** A row of the best-clients report. *)
Record ClientRow := mkClientRow {
  row_id : Z;
  fullName : string;
  row_paid : Qc
}.

Inductive Json :=
| JMessage (message : string)
| JError (error : string)
| JBestProfession (bestProfession : string)
| JRows (rows : list ClientRow).

Record Response := mkResponse { statusCode : Z; json : Json }.

(** Modelled from the spec: [src/middleware/getProfile.js] is absent.  The
    specification describes it as the authentication middleware that
    attaches the resolved caller's profile (id, type, balance) to the
    request, and takes the identity as already resolved and trustworthy. *)
Definition getProfile (req : Request) : Request :=
  mkRequest (caller req) (Some (caller req)) (params req) (query req) (body req).

(** ** [POST /jobs/:job_id/pay] *)

(** The callback of [sequelize.transaction] (lines 116-148); [now] is the
    value of [new Date()]. *)
Definition pay_transaction (id job_id : Z) (now : string) : DB unit :=
  let* job := Job_findByPk job_id in
  match job with
  | None => throw (Error "Job not found")
  | Some job =>
    if paid (jobRow (dataValues job)) then throw (Error "Already paid")
    else
      match jobContract (dataValues job) with
      | None => throw (TypeError "dataValues")
      | Some Contract =>
        let contractorId := ContractorId Contract in
        let clientId := ClientId Contract in
        let* client := Profile_findByPk clientId in
        let* contractor := Profile_findByPk contractorId in
        if bool_decide (clientId ≠ id) then throw (Error "Wrong job id")
        else
          let amountToPay := price (jobRow (dataValues job)) in
          match client with
          | None => throw (TypeError "balance")
          | Some client =>
            if bool_decide (balance (dataValues client) < amountToPay)
            then throw (Error "Client's balance is insufficient for payment")
            else
              let client :=
                mkInstance (pk client)
                  (set_balance (balance (dataValues client) - amountToPay)
                               (dataValues client)) in
              match contractor with
              | None => throw (TypeError "balance")
              | Some contractor =>
                let contractor :=
                  mkInstance (pk contractor)
                    (set_balance (balance (dataValues contractor) + amountToPay)
                                 (dataValues contractor)) in
                let job :=
                  mkInstance (pk job)
                    (mkJobWithContract
                       (set_paymentDate (Some now)
                          (set_paid true (jobRow (dataValues job))))
                       (jobContract (dataValues job))) in
                Promise_all [Profile_save client; Profile_save contractor; Job_save job]
              end
          end
      end
  end.

(** The handler (lines 110-156).  [const {id} = req.profile] stands before
    the [try]: without a profile on the request the exception escapes. *)
Definition post_jobs_pay (now : string) (req : Request) : DB Response :=
  let job_id := job_id (params req) in
  match profile req with
  | None => throw (TypeError "id")
  | Some p =>
    let id := pk p in
    try_catch
      (transaction (pay_transaction id job_id now) ;;;
       ret (mkResponse 200 (JMessage "Payment successful")))
      (λ error, ret (mkResponse 400 (JError (exn_message error))))
  end.

(** ** [POST /balances/deposit/:userId] *)

(** The callback of [sequelize.transaction] (lines 167-193). *)
Definition deposit_transaction (userId : Z) (depositAmount : Qc) : DB unit :=
  let* client := Profile_findByPk userId in
  match client with
  | None => throw (Error "Client not found")
  | Some client =>
    let* outstandingJobsAmount := Job_sum_price userId in
    let maxDepositProcent := Q2Qc (1 # 4) in
    let maxDepositAmount := mul_nullable maxDepositProcent outstandingJobsAmount in
    if bool_decide (maxDepositAmount < depositAmount)
    then throw (Error "Deposit amount exceeds the maximum allowed")
    else
      let client :=
        mkInstance (pk client)
          (set_balance (balance (dataValues client) + depositAmount)
                       (dataValues client)) in
      Profile_save client
  end.

(** The handler (lines 161-200). *)
Definition post_balances_deposit (req : Request) : DB Response :=
  let userId := userId (params req) in
  let depositAmount := depositAmount (body req) in
  try_catch
    (transaction (deposit_transaction userId depositAmount) ;;;
     ret (mkResponse 200 (JMessage "Deposit successful")))
    (λ error, ret (mkResponse 400 (JError (exn_message error)))).

(** ** The two raw report queries *)

(** [WHERE d BETWEEN :start AND :end]; a [NULL] date matches nothing. *)
Definition between (start end_ : string) (d : option string) : bool :=
  match d with
  | None => false
  | Some d => String.leb start d && String.leb d end_
  end.

Section Aggregates.
Context {K : Type} `{EqDecision K}.

(** [SUM(price)] of the rows of group [k]. *)
Definition group_sum (k : K) (rows : list (K * Qc)) : Qc :=
  sumQc (filter (λ r, r.1 = k) rows).*2.

(** [SELECT k, SUM(price) ... GROUP BY k]: one row per key that occurs. *)
Definition group_by_sum (rows : list (K * Qc)) : list (K * Qc) :=
  (λ k, (k, group_sum k rows)) <$> remove_dups rows.*1.

(** The order of [ORDER BY sum DESC]: the larger sum comes first. *)
Definition sum_desc : relation (K * Qc) := λ a b, b.2 ≤ a.2.

#[global] Instance sum_desc_dec : RelDecision sum_desc.
Proof. intros a b. unfold sum_desc. apply _. Defined.

Definition order_by_desc (rows : list (K * Qc)) : list (K * Qc) :=
  merge_sort sum_desc rows.

(** [LIMIT n]; a negative [n] is no limit. *)
Definition sql_limit (n : Z) (rows : list (K * Qc)) : list (K * Qc) :=
  if (n <? 0)%Z then rows else take (Z.to_nat n) rows.

End Aggregates.

(** The joined and filtered rows of the best-profession query (lines
    217-220), as pairs of [contractor.profession] and [jobs.price]. *)
Definition best_profession_rows (start end_ : string) (l : Ledger)
  : list (string * Qc) :=
  '(cid, contract) ← map_to_list (contracts l);
  match profiles l !! ContractorId contract with
  | None => []
  | Some contractor =>
    '(_, job) ← map_to_list (jobs l);
    if bool_decide (ContractId job = cid) && between start end_ (paymentDate job)
    then [(profession contractor, price job)]
    else []
  end.

(** The query of lines 213-227. *)
Definition query_best_profession (start end_ : string) : DB (list (string * Qc)) :=
  select (SelectBestProfession start end_) (λ l,
    sql_limit 1 (order_by_desc (group_by_sum (best_profession_rows start end_ l)))).

(** The joined and filtered rows of the best-clients query (lines 258-261),
    keyed by the grouping columns [client.id], [client.firstName] and
    [client.lastName]. *)
Definition best_clients_rows (start end_ : string) (l : Ledger)
  : list ((Z * string * string) * Qc) :=
  '(_, job) ← map_to_list (jobs l);
  match contracts l !! ContractId job with
  | None => []
  | Some contract =>
    match profiles l !! ClientId contract with
    | None => []
    | Some client =>
      if between start end_ (Some (createdAt contract))
      then [((ClientId contract, firstName client, lastName client), price job)]
      else []
    end
  end.

Definition client_row (r : (Z * string * string) * Qc) : ClientRow :=
  let '((id, first, last), paid) := r in
  mkClientRow id (first +:+ " " +:+ last) paid.

(** A [LIMIT] must be a 64-bit integer: the replacement is written into
    the statement in decimal digits, and a number the store cannot read
    as a 64-bit integer is no row count. *)
Definition limit_in_range (n : Z) : bool :=
  ((- 2 ^ 63 <? n) && (n <? 2 ^ 63))%Z.

(** The query of lines 253-268.  A [queryLimit] that is [NaN] is no valid
    [LIMIT], and one outside the 64-bit integers is refused by the store:
    the statement fails. *)
Definition query_best_clients (start end_ : string) (queryLimit : option Z)
  : DB (list ClientRow) :=
  match queryLimit with
  | None =>
    select (SelectBestClients start end_ queryLimit) (λ _, tt) ;;;
    throw (Error "SQLITE_ERROR")
  | Some n =>
    if limit_in_range n
    then
      select (SelectBestClients start end_ queryLimit) (λ l,
        client_row <$>
          sql_limit n (order_by_desc (group_by_sum (best_clients_rows start end_ l))))
    else
      select (SelectBestClients start end_ queryLimit) (λ _, tt) ;;;
      throw (Error "SQLITE_MISMATCH")
  end.

(** ** JavaScript helpers *)

(** [!v] for a query-string value: [undefined] and [''] are falsy. *)
Definition falsy (v : option string) : bool :=
  match v with
  | None => true
  | Some s => bool_decide (s = "")
  end.

Definition is_space (c : Ascii.ascii) : bool :=
  let n := Ascii.N_of_ascii c in
  ((9 <=? n) && (n <=? 13) || (n =? 32))%N.

Definition digit_of (c : Ascii.ascii) : option Z :=
  let n := Z.of_N (Ascii.N_of_ascii c) in
  if ((48 <=? n) && (n <=? 57))%Z then Some (n - 48)%Z else None.

Fixpoint skip_space (s : string) : string :=
  match s with
  | String c s' => if is_space c then skip_space s' else s
  | EmptyString => s
  end.

Fixpoint parse_digits (acc : option Z) (s : string) : option Z :=
  match s with
  | String c s' =>
    match digit_of c with
    | Some d => parse_digits (Some (10 * default 0 acc + d)%Z) s'
    | None => acc
    end
  | EmptyString => acc
  end.

(** The Number nearest to the integer [n]: [n] itself when it has at
    most 53 significant bits, and otherwise [n] rounded to 53 bits, ties
    to even. *)
Definition to_Number (n : Z) : Z :=
  let a := Z.abs n in
  let bits := (Z.log2 a + 1)%Z in
  if (bits <=? 53)%Z then n
  else
    let shift := (bits - 53)%Z in
    let q := Z.shiftr a shift in
    let r := Z.land a (Z.ones shift) in
    let half := Z.shiftl 1 (shift - 1) in
    let q' := if (half <? r)%Z || ((r =? half)%Z && Z.odd q) then (q + 1)%Z else q in
    (Z.sgn n * Z.shiftl q' shift)%Z.

(** [parseInt(s, 10)]; [None] is [NaN].  45 is ['-'] and 43 is ['+'].  The
    result is a Number, the integer read rounded to binary64. *)
Definition parseInt (s : string) : option Z :=
  to_Number <$>
    match skip_space s with
    | String c s' =>
      if (Ascii.N_of_ascii c =? 45)%N then Z.opp <$> parse_digits None s'
      else if (Ascii.N_of_ascii c =? 43)%N then parse_digits None s'
      else parse_digits None (String c s')
    | EmptyString => None
    end.

(** ** [GET /admin/best-profession] (lines 205-238) *)

Definition get_admin_best_profession (req : Request) : DB Response :=
  let start := start (query req) in
  let end_ := end_ (query req) in
  if falsy start || falsy end_
  then ret (mkResponse 400 (JError "Both start and end parameters are required"))
  else
    try_catch
      (let* result := query_best_profession (default "" start) (default "" end_) in
       match result with
       | r :: _ => ret (mkResponse 200 (JBestProfession r.1))
       | [] => ret (mkResponse 200 (JMessage "No data found for the specified time range"))
       end)
      (λ error, ret (mkResponse 500 (JError "Internal Server Error"))).

(** ** [GET /admin/best-clients] (lines 243-275) *)

Definition get_admin_best_clients (req : Request) : DB Response :=
  let start := start (query req) in
  let end_ := end_ (query req) in
  let limit := limit (query req) in
  if falsy start || falsy end_
  then ret (mkResponse 400 (JError "Both start and end parameters are required"))
  else
    let queryLimit := if falsy limit then Some 2%Z else parseInt (default "" limit) in
    try_catch
      (let* results := query_best_clients (default "" start) (default "" end_) queryLimit in
       ret (mkResponse 200 (JRows results)))
      (λ error, ret (mkResponse 500 (JError "Internal Server Error"))).

(** ** Routing: which handler runs behind which middleware *)

Inductive Route :=
| POST_jobs_pay
| POST_balances_deposit
| GET_admin_best_profession
| GET_admin_best_clients.

(** The middleware listed between the path and the handler at
    registration (lines 110, 161, 205, 243). *)
Definition middleware (r : Route) : list (Request → Request) :=
  match r with
  | POST_jobs_pay => [getProfile]
  | POST_balances_deposit => []
  | GET_admin_best_profession => [getProfile]
  | GET_admin_best_clients => [getProfile]
  end.

Definition handler (now : string) (r : Route) : Request → DB Response :=
  match r with
  | POST_jobs_pay => post_jobs_pay now
  | POST_balances_deposit => post_balances_deposit
  | GET_admin_best_profession => get_admin_best_profession
  | GET_admin_best_clients => get_admin_best_clients
  end.

Definition app (now : string) (r : Route) (req : Request) : DB Response :=
  handler now r (foldl (λ req mw, mw req) req (middleware r)).

(** ** Rows of a table in the order of the primary key *)

(** A [SELECT] without [ORDER BY] that scans a table yields its rows in
    the order of the integer primary key. *)
Definition key_le {A} : relation (Z * A) := λ a b, (a.1 ≤ b.1)%Z.

#[global] Instance key_le_dec {A} : RelDecision (@key_le A).
Proof. intros a b. unfold key_le. apply _. Defined.

Definition key_lt {A} : relation (Z * A) := λ a b, (a.1 < b.1)%Z.

Definition table_rows {A} (m : gmap Z A) : list (Z * A) :=
  merge_sort key_le (map_to_list m).

(** ** The listing handlers *)

#[global] Instance ContractStatus_eq_dec : EqDecision ContractStatus.
Proof. solve_decision. Defined.

#[global] Instance ProfileType_eq_dec : EqDecision ProfileType.
Proof. solve_decision. Defined.

(** A contract as a query with an [attributes] list returns it: a column
    that is not selected is absent, and reading it gives [undefined]
    ([None]). *)
Record RawContract := mkRawContract {
  raw_id : option Z;
  raw_terms : option string;
  raw_status : option ContractStatus;
  raw_createdAt : option string;
  raw_ClientId : option Z;
  raw_ContractorId : option Z
}.

(** A job returned with its included contract. *)
Record RawJob := mkRawJob {
  raw_description : option string;
  raw_price : option Qc;
  raw_paid : option bool;
  raw_paymentDate : option (option string);
  raw_ContractId : option Z;
  raw_Contract : RawContract
}.

(** The value of column [name] if [attributes] selects it. *)
Definition pick {A} (attributes : list string) (name : string) (v : A) : option A :=
  if bool_decide (name ∈ attributes) then Some v else None.

Definition contract_attributes (attributes : list string) (id : Z) (c : Contract)
  : RawContract :=
  mkRawContract
    (pick attributes "id" id)
    (pick attributes "terms" (terms c))
    (pick attributes "status" (status c))
    (pick attributes "createdAt" (createdAt c))
    (pick attributes "ClientId" (ClientId c))
    (pick attributes "ContractorId" (ContractorId c)).

Definition job_attributes (attributes : list string) (j : Job) (c : RawContract)
  : RawJob :=
  mkRawJob
    (pick attributes "description" (description j))
    (pick attributes "price" (price j))
    (pick attributes "paid" (paid j))
    (pick attributes "paymentDate" (paymentDate j))
    (pick attributes "ContractId" (ContractId j))
    c.

(** [Contract.findOne({ where: {id}, attributes, raw: true })] *)
Definition Contract_findOne (attributes : list string) (id : Z) (l : Ledger)
  : option RawContract :=
  contract_attributes attributes id <$> contracts l !! id.

(** The rows matched by the [where] of lines 49-57, in the order of the
    contract ids: the profile is a party of the contract and the contract
    is not terminated. *)
Definition party_contracts (id : Z) (l : Ledger) : list (Z * Contract) :=
  filter (λ ic, (ClientId ic.2 = id ∨ ContractorId ic.2 = id) ∧ status ic.2 ≠ terminated)
         (table_rows (contracts l)).

(** [Contract.findAll({ where, attributes })] of lines 48-59. *)
Definition Contract_findAll (attributes : list string) (id : Z) (l : Ledger)
  : list RawContract :=
  (λ ic, contract_attributes attributes ic.1 ic.2) <$> party_contracts id l.

(** The rows matched by the query of lines 78-96, in the order of the
    job ids: an unpaid job joined with its contract, which must be in
    progress and have the profile as a party. *)
Definition unpaid_jobs (id : Z) (l : Ledger) : list ((Z * Job) * (Z * Contract)) :=
  '(jid, job) ← table_rows (jobs l);
  if paid job then []
  else
    match contracts l !! ContractId job with
    | None => []
    | Some contract =>
      if bool_decide (status contract = in_progress ∧
                      (ClientId contract = id ∨ ContractorId contract = id))
      then [((jid, job), (ContractId job, contract))]
      else []
    end.

(** [Job.findAll({ where, include, attributes })] of lines 78-96. *)
Definition Job_findAll (attributes include_attributes : list string) (id : Z)
    (l : Ledger) : list RawJob :=
  (λ r, job_attributes attributes r.1.2
          (contract_attributes include_attributes r.2.1 r.2.2))
    <$> unpaid_jobs id l.

Inductive ListingJson :=
| LEnd
| LError (error : string)
| LContract (contract : option RawContract)
| LContracts (contracts : list RawContract)
| LJobs (jobs : list RawJob).

Record ListingResponse := mkListingResponse {
  listingStatus : Z;
  listingJson : ListingJson
}.

Definition not_found : ListingResponse := mkListingResponse 404 LEnd.

Definition internal_server_error : ListingResponse :=
  mkListingResponse 500 (LError "Internal Server Error").

(** Reading property [name] of [o] throws when [o] is [null] or
    [undefined]. *)
Definition prop {A B} (name : string) (f : A → B) (o : option A) : Exn + B :=
  match o with
  | Some a => inr (f a)
  | None => inl (TypeError name)
  end.

Definition and_then {A B} (r : Exn + A) (k : A → Exn + B) : Exn + B :=
  match r with
  | inl e => inl e
  | inr a => k a
  end.

(** The [catch] of the three listing handlers. *)
Definition catch_500 (r : Exn + ListingResponse) : ListingResponse :=
  match r with
  | inl _ => internal_server_error
  | inr response => response
  end.

(** [GET /contracts/:id] (lines 14-38).  The handlers of this group only
    read, so they are functions of the tables; [inl] is an exception that
    escapes the handler. *)
Definition get_contracts_id (id : Z) (req : Request) (l : Ledger)
  : Exn + ListingResponse :=
  inr (catch_500
    (let contract := Contract_findOne ["terms"; "status"] id l in
     match profile req with
     | None => inl (TypeError "type")
     | Some p =>
       and_then
         (if bool_decide (type (dataValues p) = type_client)
          then prop "ClientId" (λ c, bool_decide (raw_ClientId c = Some (pk p))) contract
          else inr false)
         (λ as_client,
            if as_client : bool then inr (mkListingResponse 200 (LContract contract))
            else
              and_then
                (if bool_decide (type (dataValues p) = type_contractor)
                 then prop "ContractorId"
                        (λ c, bool_decide (raw_ContractorId c = Some (pk p))) contract
                 else inr false)
                (λ as_contractor,
                   if as_contractor : bool
                   then inr (mkListingResponse 200 (LContract contract))
                   else inr not_found))
     end)).

(** [GET /contracts] (lines 43-68); [const {id} = req.profile] stands
    before the [try]. *)
Definition get_contracts (req : Request) (l : Ledger) : Exn + ListingResponse :=
  match profile req with
  | None => inl (TypeError "id")
  | Some p =>
    let id := pk p in
    inr (catch_500
      (let contracts := Contract_findAll ["terms"; "status"] id l in
       if bool_decide (length contracts = 0%nat) then inr not_found
       else inr (mkListingResponse 200 (LContracts contracts))))
  end.

(** [GET /jobs/unpaid] (lines 73-105). *)
Definition get_jobs_unpaid (req : Request) (l : Ledger) : Exn + ListingResponse :=
  match profile req with
  | None => inl (TypeError "id")
  | Some p =>
    let id := pk p in
    inr (catch_500
      (let jobs := Job_findAll ["description"; "price"] ["terms"; "status"] id l in
       if bool_decide (length jobs = 0%nat) then inr not_found
       else inr (mkListingResponse 200 (LJobs jobs))))
  end.

Inductive ListingRoute :=
| GET_contracts_id (id : Z)
| GET_contracts
| GET_jobs_unpaid.

(** All three are registered behind [getProfile] (lines 14, 43, 73). *)
Definition listing_middleware (r : ListingRoute) : list (Request → Request) :=
  match r with
  | GET_contracts_id _ => [getProfile]
  | GET_contracts => [getProfile]
  | GET_jobs_unpaid => [getProfile]
  end.

Definition listing_handler (r : ListingRoute)
  : Request → Ledger → Exn + ListingResponse :=
  match r with
  | GET_contracts_id id => get_contracts_id id
  | GET_contracts => get_contracts
  | GET_jobs_unpaid => get_jobs_unpaid
  end.

Definition listing_app (r : ListingRoute) (req : Request) (l : Ledger)
  : Exn + ListingResponse :=
  listing_handler r (foldl (λ req mw, mw req) req (listing_middleware r)) l.

(** ** Vocabulary of the properties *)

(** The statements every payment that gets past the [Already paid] check
    has issued when it reaches the caller check. *)
Definition pay_statements (jid : Z) (c : Contract) : list Statement :=
  [SelectJob jid; SelectProfile (ClientId c); SelectProfile (ContractorId c)].

(** The tables after the three [save] calls of a payment of job [jid]. *)
Definition paid_ledger (now : string) (jid : Z) (j : Job) (c : Contract)
    (cl co : Profile) (l : Ledger) : Ledger :=
  mkLedger
    (alter (set_balance (balance co + price j)) (ContractorId c)
       (alter (set_balance (balance cl - price j)) (ClientId c) (profiles l)))
    (contracts l)
    (alter (λ j', set_paymentDate (Some now) (set_paid true j')) jid (jobs l)).

(** The client's outstanding amount: the sum of the prices of the unpaid
    jobs of the client's contracts; the empty sum is [0]. *)
Definition outstanding (userId : Z) (l : Ledger) : Qc :=
  sumQc (price <$> outstanding_jobs userId l).




(** The responses of the handlers. *)
Definition payment_successful : Response :=
  mkResponse 200 (JMessage "Payment successful").
Definition deposit_successful : Response :=
  mkResponse 200 (JMessage "Deposit successful").
Definition already_paid : Response :=
  mkResponse 400 (JError "Already paid").
Definition wrong_job_id : Response :=
  mkResponse 400 (JError "Wrong job id").
Definition insufficient_funds : Response :=
  mkResponse 400 (JError "Client's balance is insufficient for payment").
Definition limit_exceeded : Response :=
  mkResponse 400 (JError "Deposit amount exceeds the maximum allowed").
Definition bounds_required : Response :=
  mkResponse 400 (JError "Both start and end parameters are required").

(** The jobs, paid or not, of the contracts of client [cid] that were
    created in the window [[start, end_]]. *)
Definition client_jobs (start end_ : string) (cid : Z) (l : Ledger) : list Job :=
  filter (λ j, (λ c, (ClientId c, between start end_ (Some (createdAt c))))
                 <$> contracts l !! ContractId j = Some (cid, true))
         (map_to_list (jobs l)).*2.

(** The summed price of these jobs. *)
Definition client_total (start end_ : string) (l : Ledger) (cid : Z) : Qc :=
  sumQc (price <$> client_jobs start end_ cid l).

(** The [queryLimit] of line 250. *)
Definition queryLimit_of (q : QueryString) : option Z :=
  if falsy (limit q) then Some 2%Z else parseInt (default "" (limit q)).

(** ** A sample ledger *)

Definition dec (n : Z) (d : positive) : Qc := Q2Qc (n # d).

Definition sample_profiles : gmap Z Profile :=
  <[1%Z := mkProfile "Harry" "Potter" "Wizard" (dec 1150 1) type_client]>
  (<[2%Z := mkProfile "Mr" "Robot" "Hacker" (dec 50 1) type_client]>
  (<[3%Z := mkProfile "John" "Snow" "Knows nothing" (dec 45180 100) type_client]>
  (<[5%Z := mkProfile "John" "Lenon" "Musician" (dec 64 1) type_contractor]>
  (<[6%Z := mkProfile "Linus" "Torvalds" "Programmer" (dec 1214 1) type_contractor]>
   ∅)))).

Definition sample_contracts : gmap Z Contract :=
  <[1%Z := mkContract "bla bla bla" in_progress "2020-08-10" 1 5]>
  (<[2%Z := mkContract "bla bla bla" in_progress "2020-08-11" 2 6]> ∅).

Definition sample_jobs : gmap Z Job :=
  <[1%Z := mkJob "work" (dec 200 1) false None 1]>
  (<[2%Z := mkJob "work" (dec 800 1) false None 1]>
  (<[3%Z := mkJob "work" (dec 100 1) true (Some "2020-08-15") 1]>
  (<[4%Z := mkJob "work" (dec 50 1) true (Some "2020-08-16") 2]>
  (<[5%Z := mkJob "work" (dec 120 1) false None 2]> ∅)))).

Definition sample_store : Store :=
  mkStore (mkLedger sample_profiles sample_contracts sample_jobs) [].

(** A request of caller [callerId] with path parameters [job_id] and
    [userId] both [n], the given body amount and the window of August
    2020. *)
Definition sample_request (callerId n : Z) (amount : Qc) : Request :=
  mkRequest
    (mkInstance callerId (default (mkProfile "" "" "" 0 type_client)
                                 (sample_profiles !! callerId)))
    None
    (mkParams n n)
    (mkQueryString (Some "2020-08-01") (Some "2020-08-31") None)
    (mkBody amount).

Definition sample_now : string := "2020-08-20".

(** The sample ledger with a terminated contract between profiles 1 and
    6, which has one unpaid job. *)
Definition terminated_store : Store :=
  mkStore
    (mkLedger sample_profiles
       (<[3%Z := mkContract "bla bla bla" terminated "2020-08-09" 1 6]> sample_contracts)
       (<[6%Z := mkJob "work" (dec 400 1) false None 3]> sample_jobs))
    [].

(** ** The arithmetic of the handlers in binary64

    JavaScript numbers are IEEE 754 binary64 values, and so are the sums
    of the store.  This module gives the two handlers that compute with
    money, payment and deposit, over rows whose [balance] and [price] are
    binary64 values: [-], [+], [*], [<] and [>] are the operations of
    [PrimFloat], each arithmetic result rounded to the nearest value.
    Everything else is as above. *)
Module Binary64.

Record Profile := mkProfile {
  firstName : string;
  lastName : string;
  profession : string;
  balance : float;
  type : ProfileType
}.

Record Job := mkJob {
  description : string;
  price : float;
  paid : bool;
  paymentDate : option string;
  ContractId : Z
}.

Record Ledger := mkLedger {
  profiles : gmap Z Profile;
  contracts : gmap Z Contract;
  jobs : gmap Z Job
}.

Definition set_balance (b : float) (p : Profile) : Profile :=
  mkProfile (firstName p) (lastName p) (profession p) b (type p).

Definition set_paid (b : bool) (j : Job) : Job :=
  mkJob (description j) (price j) b (paymentDate j) (ContractId j).

Definition set_paymentDate (d : option string) (j : Job) : Job :=
  mkJob (description j) (price j) (paid j) d (ContractId j).

Definition set_profiles (ps : gmap Z Profile) (l : Ledger) : Ledger :=
  mkLedger ps (contracts l) (jobs l).

Definition set_jobs (js : gmap Z Job) (l : Ledger) : Ledger :=
  mkLedger (profiles l) (contracts l) js.

Record JobWithContract := mkJobWithContract {
  jobRow : Job;
  jobContract : option Contract
}.

Record Store := mkStore {
  ledger : Ledger;
  issued : list Statement
}.

Definition DB (A : Type) : Type := Store → (Exn + A) * Store.

Definition ret {A} (a : A) : DB A := λ s, (inr a, s).

Definition bind {A B} (m : DB A) (k : A → DB B) : DB B :=
  λ s, match m s with
       | (inl e, s') => (inl e, s')
       | (inr a, s') => k a s'
       end.

Definition throw {A} (e : Exn) : DB A := λ s, (inl e, s).

(** The handlers below write [bind m (λ x, k)] for [const x = await m; k]. *)

Definition select {A} (q : Statement) (f : Ledger → A) : DB A :=
  λ s, (inr (f (ledger s)), mkStore (ledger s) (issued s ++ [q])).

Definition update (q : Statement) (f : Ledger → Ledger) : DB unit :=
  λ s, (inr tt, mkStore (f (ledger s)) (issued s ++ [q])).

Definition transaction {A} (body : DB A) : DB A :=
  λ s, match body s with
       | (inl e, s') => (inl e, mkStore (ledger s) (issued s'))
       | (inr a, s') => (inr a, s')
       end.

Definition try_catch {A} (body : DB A) (handler : Exn → DB A) : DB A :=
  λ s, match body s with
       | (inl e, s') => handler e s'
       | (inr a, s') => (inr a, s')
       end.

(** [Job.findByPk(job_id, { include: [Contract] })] *)
Definition Job_findByPk (job_id : Z) : DB (option (Instance JobWithContract)) :=
  select (SelectJob job_id) (λ l,
    (λ j, mkInstance job_id (mkJobWithContract j (contracts l !! ContractId j)))
      <$> jobs l !! job_id).

(** [Profile.findByPk(id)] *)
Definition Profile_findByPk (id : Z) : DB (option (Instance Profile)) :=
  select (SelectProfile id) (λ l, mkInstance id <$> profiles l !! id).

Definition Profile_save (inst : Instance Profile) : DB unit :=
  update (UpdateProfile (pk inst)) (λ l,
    set_profiles (alter (set_balance (balance (dataValues inst))) (pk inst) (profiles l)) l).

Definition Job_save (inst : Instance JobWithContract) : DB unit :=
  update (UpdateJob (pk inst)) (λ l,
    set_jobs (alter (λ j, set_paymentDate (paymentDate (jobRow (dataValues inst)))
                            (set_paid (paid (jobRow (dataValues inst))) j))
                    (pk inst) (jobs l)) l).

Definition Promise_all (ms : list (DB unit)) : DB unit :=
  foldr (λ m k, bind m (λ _, k)) (ret tt) ms.

(** The rows [Job.sum('price', { where: { paid: false,
    '$Contract.ClientId$': userId }, include: [Contract] })] adds up, in
    the order of the job ids. *)
Definition outstanding_jobs (userId : Z) (l : Ledger) : list (Z * Job) :=
  filter (λ r, paid r.2 = false ∧
               ClientId <$> contracts l !! ContractId r.2 = Some userId)
         (table_rows (jobs l)).

(** SQL [SUM] over binary64 values: the store adds row after row to a
    running total that starts at zero, rounding each partial sum. *)
Definition sql_sum (xs : list float) : float :=
  foldl PrimFloat.add 0%float xs.

(** [SUM] over no row is [NULL], handed on as [null]. *)
Definition Job_sum (userId : Z) (l : Ledger) : option float :=
  match outstanding_jobs userId l with
  | [] => None
  | rows => Some (sql_sum ((λ r, price r.2) <$> rows))
  end.

Definition Job_sum_price (userId : Z) : DB (option float) :=
  select (SumOutstanding userId) (Job_sum userId).

(** [x * y] where [y] may be [null]: [ToNumber(null)] is [+0]. *)
Definition mul_nullable (x : float) (y : option float) : float :=
  PrimFloat.mul x (default 0%float y).

Record Body := mkBody { depositAmount : float }.

Record Request := mkRequest {
  caller : Instance Profile;
  profile : option (Instance Profile);
  params : Params;
  body : Body
}.

(** Modelled from the spec: [src/middleware/getProfile.js] is absent.  The
    specification describes it as the authentication middleware that
    attaches the resolved caller's profile (id, type, balance) to the
    request, and takes the identity as already resolved and trustworthy. *)
Definition getProfile (req : Request) : Request :=
  mkRequest (caller req) (Some (caller req)) (params req) (body req).

(** The callback of [sequelize.transaction] in the payment handler
    (lines 116-148). *)
Definition pay_transaction (id job_id : Z) (now : string) : DB unit :=
  bind (Job_findByPk job_id) (λ job,
  match job with
  | None => throw (Error "Job not found")
  | Some job =>
    if paid (jobRow (dataValues job)) then throw (Error "Already paid")
    else
      match jobContract (dataValues job) with
      | None => throw (TypeError "dataValues")
      | Some Contract =>
        let contractorId := ContractorId Contract in
        let clientId := ClientId Contract in
        bind (Profile_findByPk clientId) (λ client,
        bind (Profile_findByPk contractorId) (λ contractor,
        if bool_decide (clientId ≠ id) then throw (Error "Wrong job id")
        else
          let amountToPay := price (jobRow (dataValues job)) in
          match client with
          | None => throw (TypeError "balance")
          | Some client =>
            if PrimFloat.ltb (balance (dataValues client)) amountToPay
            then throw (Error "Client's balance is insufficient for payment")
            else
              let client :=
                mkInstance (pk client)
                  (set_balance (PrimFloat.sub (balance (dataValues client)) amountToPay)
                               (dataValues client)) in
              match contractor with
              | None => throw (TypeError "balance")
              | Some contractor =>
                let contractor :=
                  mkInstance (pk contractor)
                    (set_balance
                       (PrimFloat.add (balance (dataValues contractor)) amountToPay)
                       (dataValues contractor)) in
                let job :=
                  mkInstance (pk job)
                    (mkJobWithContract
                       (set_paymentDate (Some now)
                          (set_paid true (jobRow (dataValues job))))
                       (jobContract (dataValues job))) in
                Promise_all [Profile_save client; Profile_save contractor; Job_save job]
              end
          end))
      end
  end).

(** The payment handler (lines 110-156). *)
Definition post_jobs_pay (now : string) (req : Request) : DB Response :=
  let job_id := job_id (params req) in
  match profile req with
  | None => throw (TypeError "id")
  | Some p =>
    let id := pk p in
    try_catch
      (bind (transaction (pay_transaction id job_id now)) (λ _,
       ret (mkResponse 200 (JMessage "Payment successful"))))
      (λ error, ret (mkResponse 400 (JError (exn_message error))))
  end.

(** [maxDepositAmount] of line 184 as a function of the tables. *)
Definition maxDepositAmount (userId : Z) (l : Ledger) : float :=
  mul_nullable 0.25%float (Job_sum userId l).

(** The callback of [sequelize.transaction] in the deposit handler
    (lines 167-193). *)
Definition deposit_transaction (userId : Z) (depositAmount : float) : DB unit :=
  bind (Profile_findByPk userId) (λ client,
  match client with
  | None => throw (Error "Client not found")
  | Some client =>
    bind (Job_sum_price userId) (λ outstandingJobsAmount,
    let maxDepositProcent := 0.25%float in
    let maxDepositAmount := mul_nullable maxDepositProcent outstandingJobsAmount in
    if PrimFloat.ltb maxDepositAmount depositAmount
    then throw (Error "Deposit amount exceeds the maximum allowed")
    else
      let client :=
        mkInstance (pk client)
          (set_balance (PrimFloat.add (balance (dataValues client)) depositAmount)
                       (dataValues client)) in
      Profile_save client)
  end).

(** The deposit handler (lines 161-200). *)
Definition post_balances_deposit (req : Request) : DB Response :=
  let userId := userId (params req) in
  let depositAmount := depositAmount (body req) in
  try_catch
    (bind (transaction (deposit_transaction userId depositAmount)) (λ _,
     ret (mkResponse 200 (JMessage "Deposit successful"))))
    (λ error, ret (mkResponse 400 (JError (exn_message error)))).

Inductive Route := POST_jobs_pay | POST_balances_deposit.

(** The middleware at registration (lines 110 and 161). *)
Definition middleware (r : Route) : list (Request → Request) :=
  match r with
  | POST_jobs_pay => [getProfile]
  | POST_balances_deposit => []
  end.

Definition handler (now : string) (r : Route) : Request → DB Response :=
  match r with
  | POST_jobs_pay => post_jobs_pay now
  | POST_balances_deposit => post_balances_deposit
  end.

Definition app (now : string) (r : Route) (req : Request) : DB Response :=
  handler now r (foldl (λ req mw, mw req) req (middleware r)).

(** The tables after the three [save] calls of a payment of job [jid]. *)
Definition paid_ledger (now : string) (jid : Z) (j : Job) (c : Contract)
    (cl co : Profile) (l : Ledger) : Ledger :=
  mkLedger
    (alter (set_balance (PrimFloat.add (balance co) (price j))) (ContractorId c)
       (alter (set_balance (PrimFloat.sub (balance cl) (price j))) (ClientId c)
              (profiles l)))
    (contracts l)
    (alter (λ j', set_paymentDate (Some now) (set_paid true j')) jid (jobs l)).

(** [rows] are the unpaid jobs of the contracts that have [userId] as
    client: one row per such job, in ascending order of the job ids. *)
Definition unpaid_jobs_of (userId : Z) (l : Ledger) (rows : list (Z * Job)) : Prop :=
  StronglySorted key_lt rows ∧
  ∀ jid j, (jid, j) ∈ rows
           ↔ jobs l !! jid = Some j ∧ paid j = false ∧
             ∃ c, contracts l !! ContractId j = Some c ∧ ClientId c = userId.

(** The exact value of a finite binary64 number as a rational; [0] for
    the infinities and for [NaN]. *)
Definition exact (x : float) : Q :=
  match Prim2SF x with
  | SpecFloat.S754_finite s m e =>
    let v := if s then Z.neg m else Z.pos m in
    if (0 <=? e)%Z then inject_Z (v * 2 ^ e) else Qmake v (2 ^ Z.to_pos (- e))
  | _ => 0%Q
  end.

(** *** Sample ledgers *)

(** The sample ledger above with binary64 amounts. *)
Definition sample_profiles : gmap Z Profile :=
  <[1%Z := mkProfile "Harry" "Potter" "Wizard" 1150%float type_client]>
  (<[2%Z := mkProfile "Mr" "Robot" "Hacker" 50%float type_client]>
  (<[3%Z := mkProfile "John" "Snow" "Knows nothing" 451.8%float type_client]>
  (<[5%Z := mkProfile "John" "Lenon" "Musician" 64%float type_contractor]>
  (<[6%Z := mkProfile "Linus" "Torvalds" "Programmer" 1214%float type_contractor]>
   ∅)))).

Definition sample_contracts : gmap Z Contract :=
  <[1%Z := mkContract "bla bla bla" in_progress "2020-08-10" 1 5]>
  (<[2%Z := mkContract "bla bla bla" in_progress "2020-08-11" 2 6]> ∅).

Definition sample_jobs : gmap Z Job :=
  <[1%Z := mkJob "work" 200%float false None 1]>
  (<[2%Z := mkJob "work" 800%float false None 1]>
  (<[3%Z := mkJob "work" 100%float true (Some "2020-08-15") 1]>
  (<[4%Z := mkJob "work" 50%float true (Some "2020-08-16") 2]>
  (<[5%Z := mkJob "work" 120%float false None 2]> ∅)))).

Definition sample_store : Store :=
  mkStore (mkLedger sample_profiles sample_contracts sample_jobs) [].

(** A ledger with amounts that binary64 does not add exactly: client 1
    has 0.3, contractor 5 has 0.7, and their contract has two unpaid jobs
    of 0.1 and 0.2. *)
Definition rounding_store : Store :=
  mkStore
    (mkLedger
       (<[1%Z := mkProfile "Harry" "Potter" "Wizard" 0.3%float type_client]>
        (<[5%Z := mkProfile "John" "Lenon" "Musician" 0.7%float type_contractor]> ∅))
       (<[1%Z := mkContract "bla bla bla" in_progress "2020-08-10" 1 5]> ∅)
       (<[1%Z := mkJob "work" 0.1%float false None 1]>
        (<[2%Z := mkJob "work" 0.2%float false None 1]> ∅)))
    [].

(** The same with unpaid jobs of 0.1 and 0.7. *)
Definition rounding_store' : Store :=
  mkStore
    (mkLedger
       (<[1%Z := mkProfile "Harry" "Potter" "Wizard" 0.3%float type_client]>
        (<[5%Z := mkProfile "John" "Lenon" "Musician" 0.7%float type_contractor]> ∅))
       (<[1%Z := mkContract "bla bla bla" in_progress "2020-08-10" 1 5]> ∅)
       (<[1%Z := mkJob "work" 0.1%float false None 1]>
        (<[2%Z := mkJob "work" 0.7%float false None 1]> ∅)))
    [].

(** A ledger whose contract 9 names profile 1 as client and as
    contractor. *)
Definition self_contract_store : Store :=
  mkStore
    (mkLedger sample_profiles
       (<[9%Z := mkContract "bla bla bla" in_progress "2020-08-12" 1 1]> sample_contracts)
       (<[9%Z := mkJob "work" 300%float false None 9]> sample_jobs))
    [].

(** A request of caller [callerId] with path parameters [job_id] and
    [userId] both [n] and the given body amount. *)
Definition sample_request (callerId n : Z) (amount : float) : Request :=
  mkRequest
    (mkInstance callerId (default (mkProfile "" "" "" 0%float type_client)
                                 (sample_profiles !! callerId)))
    None
    (mkParams n n)
    (mkBody amount).

End Binary64.

(** ** Proof support *)

Ltac unfold_db :=
  unfold app, handler, middleware, post_jobs_pay, post_balances_deposit,
    get_admin_best_profession, get_admin_best_clients,
    try_catch, transaction, pay_transaction, deposit_transaction,
    Promise_all, Job_findByPk, Profile_findByPk, Profile_save, Job_save,
    Job_sum_price, query_best_profession, query_best_clients,
    bind, ret, throw, select, update; cbn.

(** * Properties *)

(** ** Payment *)

Lemma pay_already_paid now req s j :
  jobs (ledger s) !! job_id (params req) = Some j →
  paid j = true →
  app now POST_jobs_pay req s =
    (inr already_paid,
     mkStore (ledger s) (issued s ++ [SelectJob (job_id (params req))])).
Proof.
  intros Hj Hp. unfold_db. rewrite Hj. cbn. rewrite Hp. reflexivity.
Qed.

Lemma pay_wrong_caller now req s j c :
  jobs (ledger s) !! job_id (params req) = Some j →
  paid j = false →
  contracts (ledger s) !! ContractId j = Some c →
  pk (caller req) ≠ ClientId c →
  app now POST_jobs_pay req s =
    (inr wrong_job_id,
     mkStore (ledger s) (issued s ++ pay_statements (job_id (params req)) c)).
Proof.
  intros Hj Hp Hc Hne. unfold_db. rewrite Hj. cbn. rewrite Hp, Hc. cbn.
  rewrite bool_decide_true by congruence. cbn. rewrite <- !app_assoc. reflexivity.
Qed.

Lemma pay_funds_checked now req s j c cl co :
  jobs (ledger s) !! job_id (params req) = Some j →
  paid j = false →
  contracts (ledger s) !! ContractId j = Some c →
  pk (caller req) = ClientId c →
  profiles (ledger s) !! ClientId c = Some cl →
  profiles (ledger s) !! ContractorId c = Some co →
  app now POST_jobs_pay req s =
    if bool_decide (balance cl < price j)
    then (inr insufficient_funds,
          mkStore (ledger s) (issued s ++ pay_statements (job_id (params req)) c))
    else (inr payment_successful,
          mkStore (paid_ledger now (job_id (params req)) j c cl co (ledger s))
            (issued s ++ pay_statements (job_id (params req)) c ++
               [UpdateProfile (ClientId c); UpdateProfile (ContractorId c);
                UpdateJob (job_id (params req))])).
Proof.
  intros Hj Hp Hc Hid Hcl Hco. unfold_db. rewrite Hj. cbn. rewrite Hp, Hc. cbn.
  rewrite Hcl, Hco. cbn. rewrite bool_decide_false by (intros H; congruence). cbn.
  destruct (bool_decide (balance cl < price j)); cbn;
    rewrite <- !app_assoc; reflexivity.
Qed.

(** Without a contractor row the payment stops at [contractor.balance]
    and the transaction is rolled back. *)
Lemma pay_no_contractor now req s j c cl :
  jobs (ledger s) !! job_id (params req) = Some j →
  paid j = false →
  contracts (ledger s) !! ContractId j = Some c →
  pk (caller req) = ClientId c →
  profiles (ledger s) !! ClientId c = Some cl →
  profiles (ledger s) !! ContractorId c = None →
  app now POST_jobs_pay req s =
    (inr (if bool_decide (balance cl < price j) then insufficient_funds
          else mkResponse 400 (JError (exn_message (TypeError "balance")))),
     mkStore (ledger s) (issued s ++ pay_statements (job_id (params req)) c)).
Proof.
  intros Hj Hp Hc Hid Hcl Hco. unfold_db. rewrite Hj. cbn. rewrite Hp, Hc. cbn.
  rewrite Hcl, Hco. cbn. rewrite bool_decide_false by (intros H; congruence). cbn.
  destruct (bool_decide (balance cl < price j)); cbn;
    rewrite <- !app_assoc; reflexivity.
Qed.

Lemma pay_success_inv now req s :
  (app now POST_jobs_pay req s).1 = inr payment_successful →
  ∃ j c cl co,
    jobs (ledger s) !! job_id (params req) = Some j ∧
    paid j = false ∧
    contracts (ledger s) !! ContractId j = Some c ∧
    pk (caller req) = ClientId c ∧
    profiles (ledger s) !! ClientId c = Some cl ∧
    profiles (ledger s) !! ContractorId c = Some co ∧
    ¬ balance cl < price j.
Proof.
  unfold_db.
  destruct (jobs (ledger s) !! job_id (params req)) as [j|] eqn:Hj; cbn; [|discriminate].
  destruct (paid j) eqn:Hp; cbn; [discriminate|].
  destruct (contracts (ledger s) !! ContractId j) as [c|] eqn:Hc; cbn; [|discriminate].
  destruct (profiles (ledger s) !! ClientId c) as [cl|] eqn:Hcl;
    destruct (profiles (ledger s) !! ContractorId c) as [co|] eqn:Hco; cbn;
    case_bool_decide as Hid; cbn; try discriminate.
  - case_bool_decide as Hbal; cbn; [discriminate|]. intros _.
    exists j, c, cl, co. repeat split; try done.
    all: destruct (decide (pk (caller req) = ClientId c)); [done|];
      destruct Hid; congruence.
  - case_bool_decide; cbn; discriminate.
Qed.

(** Claim C2.  Paying a job whose [paid] flag is already set fails with the
    error [Already paid], whoever the caller is, and leaves every table
    (hence every balance and every job field) as it was. *)
Theorem pay_already_paid_rejected now req s j :
  jobs (ledger s) !! job_id (params req) = Some j →
  paid j = true →
  (app now POST_jobs_pay req s).1 = inr already_paid ∧
  ledger (app now POST_jobs_pay req s).2 = ledger s.
Proof.
  intros Hj Hp. rewrite (pay_already_paid now req s j Hj Hp). done.
Qed.

Lemma pay_already_paid_rejected_witness :
  (app sample_now POST_jobs_pay (sample_request 1 3 0) sample_store).1
    = inr already_paid ∧
  ledger (app sample_now POST_jobs_pay (sample_request 1 3 0) sample_store).2
    = ledger sample_store.
Proof.
  apply (pay_already_paid_rejected sample_now (sample_request 1 3 0) sample_store
           (mkJob "work" (dec 100 1) true (Some "2020-08-15") 1)).
  - vm_compute. reflexivity.
  - reflexivity.
Defined.

(** Claim C3 as it is worded does not hold: job 5 of the sample ledger is
    unpaid, its client (profile 2) has 50 against a price of 120, and yet
    the call of profile 1 is answered with [Wrong job id], because the
    caller check stands before the funds check. *)
Lemma pay_insufficient_funds_needs_client :
  let s := sample_store in
  let req := sample_request 1 5 0 in
  ∃ j c cl,
    jobs (ledger s) !! job_id (params req) = Some j ∧
    paid j = false ∧
    contracts (ledger s) !! ContractId j = Some c ∧
    profiles (ledger s) !! ClientId c = Some cl ∧
    balance cl < price j ∧
    (app sample_now POST_jobs_pay req s).1 = inr wrong_job_id ∧
    (app sample_now POST_jobs_pay req s).1 ≠ inr insufficient_funds.
Proof.
  exists (mkJob "work" (dec 120 1) false None 2),
         (mkContract "bla bla bla" in_progress "2020-08-11" 2 6),
         (mkProfile "Mr" "Robot" "Hacker" (dec 50 1) type_client).
  repeat split; try (vm_compute; reflexivity).
  vm_compute. discriminate.
Qed.

(** Claim C3, amended.  For an unpaid job paid for by the client of its
    contract, the payment fails with the insufficient-funds error exactly
    when the client's balance is strictly below the job's price (an equal
    balance suffices), and that failure leaves every table as it was. *)
Theorem pay_insufficient_funds_iff now req s j c cl :
  jobs (ledger s) !! job_id (params req) = Some j →
  paid j = false →
  contracts (ledger s) !! ContractId j = Some c →
  pk (caller req) = ClientId c →
  profiles (ledger s) !! ClientId c = Some cl →
  ((app now POST_jobs_pay req s).1 = inr insufficient_funds
     ↔ balance cl < price j) ∧
  (balance cl = price j →
     (app now POST_jobs_pay req s).1 ≠ inr insufficient_funds) ∧
  ((app now POST_jobs_pay req s).1 = inr insufficient_funds →
     ledger (app now POST_jobs_pay req s).2 = ledger s).
Proof.
  intros Hj Hp Hc Hid Hcl.
  destruct (profiles (ledger s) !! ContractorId c) as [co|] eqn:Hco.
  - rewrite (pay_funds_checked now req s j c cl co Hj Hp Hc Hid Hcl Hco).
    case_bool_decide as Hlt; cbn.
    + repeat split; try done. intros Heq. rewrite Heq in Hlt.
      by apply Qclt_not_eq in Hlt.
    + repeat split; try done.
  - rewrite (pay_no_contractor now req s j c cl Hj Hp Hc Hid Hcl Hco).
    case_bool_decide as Hlt; cbn.
    + repeat split; try done. intros Heq. rewrite Heq in Hlt.
      by apply Qclt_not_eq in Hlt.
    + repeat split; try done.
Qed.

Lemma pay_insufficient_funds_iff_witness :
  let req := sample_request 2 5 0 in
  ((app sample_now POST_jobs_pay req sample_store).1 = inr insufficient_funds
     ↔ dec 50 1 < dec 120 1) ∧
  (dec 50 1 = dec 120 1 →
     (app sample_now POST_jobs_pay req sample_store).1 ≠ inr insufficient_funds) ∧
  ((app sample_now POST_jobs_pay req sample_store).1 = inr insufficient_funds →
     ledger (app sample_now POST_jobs_pay req sample_store).2 = ledger sample_store).
Proof.
  apply (pay_insufficient_funds_iff sample_now (sample_request 2 5 0) sample_store
           (mkJob "work" (dec 120 1) false None 2)
           (mkContract "bla bla bla" in_progress "2020-08-11" 2 6)
           (mkProfile "Mr" "Robot" "Hacker" (dec 50 1) type_client));
    vm_compute; reflexivity.
Defined.

(** Claim C4.  For an unpaid job, a caller other than the client of the job's
    contract is answered with [Wrong job id], and every table stays as it
    was: only the contract's client can pay for its jobs. *)
Theorem pay_wrong_caller_rejected now req s j c :
  jobs (ledger s) !! job_id (params req) = Some j →
  paid j = false →
  contracts (ledger s) !! ContractId j = Some c →
  pk (caller req) ≠ ClientId c →
  (app now POST_jobs_pay req s).1 = inr wrong_job_id ∧
  (app now POST_jobs_pay req s).1 ≠ inr payment_successful ∧
  ledger (app now POST_jobs_pay req s).2 = ledger s.
Proof.
  intros Hj Hp Hc Hne. rewrite (pay_wrong_caller now req s j c Hj Hp Hc Hne). done.
Qed.

Lemma pay_wrong_caller_rejected_witness :
  let req := sample_request 2 1 0 in
  (app sample_now POST_jobs_pay req sample_store).1 = inr wrong_job_id ∧
  (app sample_now POST_jobs_pay req sample_store).1 ≠ inr payment_successful ∧
  ledger (app sample_now POST_jobs_pay req sample_store).2 = ledger sample_store.
Proof.
  apply (pay_wrong_caller_rejected sample_now (sample_request 2 1 0) sample_store
           (mkJob "work" (dec 200 1) false None 1)
           (mkContract "bla bla bla" in_progress "2020-08-10" 1 5)).
  - vm_compute. reflexivity.
  - reflexivity.
  - vm_compute. reflexivity.
  - vm_compute. discriminate.
Defined.

(** ** Deposit *)


(** The ceiling the handler computes from the nullable sum is a quarter
    of the outstanding amount. *)
Lemma ceiling_outstanding userId l :
  mul_nullable (Q2Qc (1 # 4))
    match outstanding_jobs userId l with
    | [] => None
    | js => Some (sumQc (price <$> js))
    end
  = Q2Qc (1 # 4) * outstanding userId l.
Proof.
  unfold mul_nullable, outstanding.
  by destruct (outstanding_jobs userId l).
Qed.

Lemma deposit_run now req s cl :
  profiles (ledger s) !! userId (params req) = Some cl →
  app now POST_balances_deposit req s =
    let userId := userId (params req) in
    let amount := depositAmount (body req) in
    if bool_decide (Q2Qc (1 # 4) * outstanding userId (ledger s) < amount)
    then (inr limit_exceeded,
          mkStore (ledger s) (issued s ++ [SelectProfile userId; SumOutstanding userId]))
    else (inr deposit_successful,
          mkStore
            (set_profiles
               (alter (set_balance (balance cl + amount)) userId (profiles (ledger s)))
               (ledger s))
            (issued s ++ [SelectProfile userId; SumOutstanding userId;
                          UpdateProfile userId])).
Proof.
  intros Hcl. unfold_db. rewrite Hcl. cbn.
  rewrite ceiling_outstanding.
  destruct (bool_decide (_ < _)); cbn; rewrite <- !app_assoc; reflexivity.
Qed.

Lemma deposit_refused now req s cl :
  profiles (ledger s) !! userId (params req) = Some cl →
  Q2Qc (1 # 4) * outstanding (userId (params req)) (ledger s) < depositAmount (body req) →
  (app now POST_balances_deposit req s).1 = inr limit_exceeded ∧
  ledger (app now POST_balances_deposit req s).2 = ledger s.
Proof.
  intros Hcl Hlt. rewrite (deposit_run now req s cl Hcl). cbn zeta.
  by rewrite bool_decide_true.
Qed.

(** The sample client 1 has jobs of 200 and 800 unpaid: 1000 outstanding. *)
Example sample_outstanding : outstanding 1 (ledger sample_store) = dec 1000 1.
Proof. apply Qc_is_canon. by vm_compute. Qed.

Lemma no_outstanding_jobs userId l :
  (∀ jid j c, jobs l !! jid = Some j → paid j = false →
              contracts l !! ContractId j = Some c → ClientId c ≠ userId) →
  outstanding_jobs userId l = [].
Proof.
  intros Hnone. unfold outstanding_jobs.
  destruct (filter _ _) as [|j js] eqn:Hf; [done|].
  assert (Hin : j ∈ filter
            (λ j, paid j = false ∧ ClientId <$> contracts l !! ContractId j = Some userId)
            (map_to_list (jobs l)).*2) by (rewrite Hf; left).
  apply list_elem_of_filter in Hin as [[Hp Hc] Hin].
  apply list_elem_of_fmap in Hin as ([jid j'] & -> & Hin).
  apply elem_of_map_to_list in Hin. cbn in *.
  destruct (contracts l !! ContractId j') as [c|] eqn:Hcj; [|done].
  cbn in Hc. exfalso. apply (Hnone jid j' c Hin Hp Hcj). congruence.
Qed.

(** Claim C6.  For an existing profile none of whose contracts has an unpaid
    job, the sum the store returns is [null] and counts as zero, so the
    outstanding amount and the ceiling are zero, and every deposit of a
    positive amount is refused with the limit-exceeded error, the tables
    staying as they were. *)
Theorem deposit_without_unpaid_jobs now req s cl :
  profiles (ledger s) !! userId (params req) = Some cl →
  (∀ jid j c, jobs (ledger s) !! jid = Some j → paid j = false →
              contracts (ledger s) !! ContractId j = Some c →
              ClientId c ≠ userId (params req)) →
  (Job_sum_price (userId (params req)) s).1 = inr None ∧
  mul_nullable (Q2Qc (1 # 4)) None = 0 ∧
  outstanding (userId (params req)) (ledger s) = 0 ∧
  (0 < depositAmount (body req) →
     (app now POST_balances_deposit req s).1 = inr limit_exceeded ∧
     ledger (app now POST_balances_deposit req s).2 = ledger s).
Proof.
  intros Hcl Hnone.
  pose proof (no_outstanding_jobs _ _ Hnone) as Hempty.
  assert (Hout : outstanding (userId (params req)) (ledger s) = 0)
    by (unfold outstanding; by rewrite Hempty).
  split; [|split; [|split; [done|]]].
  - unfold Job_sum_price, select. cbn. by rewrite Hempty.
  - unfold mul_nullable. cbn. ring.
  - intros Hpos. apply (deposit_refused now req s cl Hcl).
    rewrite Hout. by rewrite Qcmult_0_r.
Qed.

Lemma deposit_without_unpaid_jobs_witness :
  let req := sample_request 3 3 (dec 1 100) in
  (Job_sum_price 3 sample_store).1 = inr None ∧
  mul_nullable (Q2Qc (1 # 4)) None = 0 ∧
  outstanding 3 (ledger sample_store) = 0 ∧
  (0 < dec 1 100 →
     (app sample_now POST_balances_deposit req sample_store).1 = inr limit_exceeded ∧
     ledger (app sample_now POST_balances_deposit req sample_store).2
       = ledger sample_store).
Proof.
  apply (deposit_without_unpaid_jobs sample_now (sample_request 3 3 (dec 1 100))
           sample_store
           (mkProfile "John" "Snow" "Knows nothing" (dec 45180 100) type_client)).
  - vm_compute. reflexivity.
  - intros jid j c Hj Hp Hc.
    assert (Hin : c ∈ (map_to_list sample_contracts).*2).
    { apply list_elem_of_fmap. exists (ContractId j, c). split; [done|].
      by apply elem_of_map_to_list. }
    vm_compute in Hin.
    repeat (apply elem_of_cons in Hin as [-> | Hin]; [by vm_compute|]).
    by apply elem_of_nil in Hin.
Defined.

(** Claim C10.  The deposit route is registered without [getProfile] and its
    handler never reads the caller: two requests with the same [userId]
    and [depositAmount] get the same response and leave the same store,
    whoever sends them. *)
Theorem deposit_ignores_caller now req1 req2 s :
  userId (params req1) = userId (params req2) →
  depositAmount (body req1) = depositAmount (body req2) →
  middleware POST_balances_deposit = [] ∧
  app now POST_balances_deposit req1 s = app now POST_balances_deposit req2 s.
Proof.
  intros Hu Ha. split; [done|].
  unfold app, handler, middleware, post_balances_deposit. cbn.
  by rewrite Hu, Ha.
Qed.

Lemma deposit_ignores_caller_witness :
  middleware POST_balances_deposit = [] ∧
  app sample_now POST_balances_deposit (sample_request 1 1 (dec 250 1)) sample_store
  = app sample_now POST_balances_deposit (sample_request 2 1 (dec 250 1)) sample_store.
Proof.
  apply (deposit_ignores_caller sample_now
           (sample_request 1 1 (dec 250 1)) (sample_request 2 1 (dec 250 1))
           sample_store); reflexivity.
Defined.

(** ** Reports *)

(** Claim C8.  Both report handlers answer a request that lacks [start]
    or [end] with the error [Both start and end parameters are required]
    and hand the store back as they got it: the handler returns before
    any statement is issued, so the list of issued statements and the
    tables are unchanged.  The same holds of the two routes. *)
Theorem reports_require_bounds now req s :
  start (query req) = None ∨ end_ (query req) = None →
  (get_admin_best_profession req s = (inr bounds_required, s) ∧
   get_admin_best_clients req s = (inr bounds_required, s)) ∧
  (∀ r, r = GET_admin_best_profession ∨ r = GET_admin_best_clients →
        app now r req s = (inr bounds_required, s) ∧
        issued (app now r req s).2 = issued s ∧
        ledger (app now r req s).2 = ledger s).
Proof.
  intros Hmissing.
  assert (Hf : falsy (start (query req)) || falsy (end_ (query req)) = true).
  { destruct Hmissing as [-> | ->]; cbn; [done|]. apply orb_true_r. }
  split.
  - unfold get_admin_best_profession, get_admin_best_clients. by rewrite Hf.
  - intros r Hr.
    assert (Happ : app now r req s = (inr bounds_required, s)).
    { destruct Hr as [-> | ->]; unfold_db; by rewrite Hf. }
    by rewrite Happ.
Qed.

Lemma reports_require_bounds_witness :
  let req := mkRequest (mkInstance 1 (mkProfile "" "" "" 0 type_client)) None
               (mkParams 0 0) (mkQueryString (Some "2020-08-01") None None)
               (mkBody 0) in
  (get_admin_best_profession req sample_store = (inr bounds_required, sample_store) ∧
   get_admin_best_clients req sample_store = (inr bounds_required, sample_store)) ∧
  (∀ r, r = GET_admin_best_profession ∨ r = GET_admin_best_clients →
        app sample_now r req sample_store = (inr bounds_required, sample_store) ∧
        issued (app sample_now r req sample_store).2 = issued sample_store ∧
        ledger (app sample_now r req sample_store).2 = ledger sample_store).
Proof.
  apply (reports_require_bounds sample_now
           (mkRequest (mkInstance 1 (mkProfile "" "" "" 0 type_client)) None
              (mkParams 0 0) (mkQueryString (Some "2020-08-01") None None)
              (mkBody 0))
           sample_store).
  right. reflexivity.
Defined.

(** An empty string counts as a missing bound as well. *)
Lemma reports_require_truthy_bounds now r req s :
  r = GET_admin_best_profession ∨ r = GET_admin_best_clients →
  falsy (start (query req)) || falsy (end_ (query req)) = true →
  app now r req s = (inr bounds_required, s).
Proof.
  intros [-> | ->] Hf; unfold_db; by rewrite Hf.
Qed.

(** *** Sums over lists *)

Lemma sumQc_cons x xs : sumQc (x :: xs) = x + sumQc xs.
Proof. reflexivity. Qed.






Lemma sumQc_filter {A} (P : A → Prop) `{∀ x, Decision (P x)} (f : A → Qc) xs :
  sumQc (f <$> filter P xs) = sumQc ((λ x, if decide (P x) then f x else 0) <$> xs).
Proof.
  induction xs as [|x xs IH]; [done|].
  rewrite filter_cons, fmap_cons, sumQc_cons.
  destruct (decide (P x)).
  - by rewrite fmap_cons, sumQc_cons, IH.
  - rewrite IH. ring.
Qed.


(** *** The best-profession query *)




Section Ordering.
Context {K : Type} `{EqDecision K}.

#[local] Instance sum_desc_trans : Transitive (@sum_desc K).
Proof. intros x y z Hxy Hyz. unfold sum_desc in *. by apply Qcle_trans with y.2. Qed.

#[local] Instance sum_desc_total : Total (@sum_desc K).
Proof. intros x y. unfold sum_desc. destruct (Qc_le_total y.2 x.2); auto. Qed.



Lemma group_by_sum_elem (rows : list (K * Qc)) r :
  r ∈ group_by_sum rows ↔ r.1 ∈ rows.*1 ∧ r.2 = group_sum r.1 rows.
Proof.
  unfold group_by_sum. rewrite list_elem_of_fmap. split.
  - intros (k & -> & Hk). split; [|done]. rewrite elem_of_remove_dups in Hk. exact Hk.
  - intros [Hk Hsum]. exists r.1. split.
    + destruct r as [k x]. cbn in *. by rewrite Hsum.
    + by rewrite elem_of_remove_dups.
Qed.

End Ordering.



Lemma leb_refl (d : string) : String.leb d d = true.
Proof. by destruct (String.leb_total d d). Qed.

(** A job paid exactly at a bound is inside the window. *)
Lemma between_bounds a b :
  String.leb a b = true →
  between a b (Some a) = true ∧ between a b (Some b) = true.
Proof.
  intros Hab. unfold between. by rewrite !leb_refl, Hab.
Qed.



(** The window of the sample ledger holds a job of 100 of a musician and
    a job of 50 of a programmer: the report names the musician. *)
Example sample_best_profession :
  (app sample_now GET_admin_best_profession (sample_request 1 1 0) sample_store).1
  = inr (mkResponse 200 (JBestProfession "Musician")).
Proof. vm_compute. reflexivity. Qed.

(** A read-only report: whatever the request, no table changes. *)
Lemma best_profession_read_only now req s :
  ledger (app now GET_admin_best_profession req s).2 = ledger s.
Proof.
  unfold_db. destruct (falsy _ || falsy _); [done|]. cbn.
  by destruct (order_by_desc _).
Qed.

Lemma best_clients_read_only now req s :
  ledger (app now GET_admin_best_clients req s).2 = ledger s.
Proof.
  unfold_db. destruct (falsy _ || falsy _); [done|]. cbn.
  destruct (if falsy _ then _ else _) as [n|]; [|done].
  by destruct (limit_in_range n).
Qed.

(** ** Further facts about the two transactions *)

(** A transaction whose callback throws leaves every table as it was. *)
Lemma transaction_rollback {A} (body : DB A) s e :
  (transaction body s).1 = inl e →
  ledger (transaction body s).2 = ledger s.
Proof.
  unfold transaction. by destruct (body s) as [[e'|a] s'].
Qed.

Lemma pay_job_not_found now req s :
  jobs (ledger s) !! job_id (params req) = None →
  app now POST_jobs_pay req s =
    (inr (mkResponse 400 (JError "Job not found")),
     mkStore (ledger s) (issued s ++ [SelectJob (job_id (params req))])).
Proof.
  intros Hj. unfold_db. by rewrite Hj.
Qed.

Lemma deposit_client_not_found now req s :
  profiles (ledger s) !! userId (params req) = None →
  app now POST_balances_deposit req s =
    (inr (mkResponse 400 (JError "Client not found")),
     mkStore (ledger s) (issued s ++ [SelectProfile (userId (params req))])).
Proof.
  intros Hcl. unfold_db. by rewrite Hcl.
Qed.

(** A payment that is not answered with the success response has changed
    no table. *)
Lemma pay_failure_changes_nothing now req s :
  (app now POST_jobs_pay req s).1 ≠ inr payment_successful →
  ledger (app now POST_jobs_pay req s).2 = ledger s.
Proof.
  unfold_db.
  destruct (jobs (ledger s) !! job_id (params req)) as [j|]; cbn; [|done].
  destruct (paid j); cbn; [done|].
  destruct (contracts (ledger s) !! ContractId j) as [c|]; cbn; [|done].
  destruct (profiles (ledger s) !! ClientId c) as [cl|];
    destruct (profiles (ledger s) !! ContractorId c) as [co|]; cbn;
    case_bool_decide; cbn; try done;
    case_bool_decide; cbn; done.
Qed.

(** * Further properties of the handlers *)

(** ** Sums over tables *)

#[global] Instance sumQc_Permutation : Proper ((≡ₚ) ==> (=)) sumQc.
Proof.
  intros xs ys Hperm. induction Hperm as [|x xs ys _ IH|x y xs|xs ys zs _ IH1 _ IH2].
  - done.
  - by rewrite !sumQc_cons, IH.
  - rewrite !sumQc_cons. ring.
  - by rewrite IH1.
Qed.

Lemma map_to_list_alter_Some {A} (f : A → A) (m : gmap Z A) k x :
  m !! k = Some x →
  map_to_list (alter f k m) ≡ₚ (k, f x) :: map_to_list (delete k m).
Proof.
  intros Hk. rewrite <- (delete_alter_eq m k f).
  symmetry. apply map_to_list_delete. by rewrite lookup_alter_eq, Hk.
Qed.

(** Changing one row changes a sum over the table by the difference of
    the row's terms. *)
Lemma sumQc_alter {A} (g : A → Qc) (f : A → A) (m : gmap Z A) k x :
  m !! k = Some x →
  sumQc (g <$> (map_to_list (alter f k m)).*2)
  = sumQc (g <$> (map_to_list m).*2) - g x + g (f x).
Proof.
  intros Hk.
  rewrite (map_to_list_alter_Some f m k x Hk).
  rewrite <- (map_to_list_delete m k x Hk).
  rewrite !fmap_cons, !sumQc_cons. cbn. ring.
Qed.

(** ** Payment *)

Lemma pay_success_conditions now req s :
  (app now POST_jobs_pay req s).1 = inr payment_successful
  ↔ ∃ j c cl co,
      jobs (ledger s) !! job_id (params req) = Some j ∧
      paid j = false ∧
      contracts (ledger s) !! ContractId j = Some c ∧
      pk (caller req) = ClientId c ∧
      profiles (ledger s) !! ClientId c = Some cl ∧
      profiles (ledger s) !! ContractorId c = Some co ∧
      price j ≤ balance cl.
Proof.
  split.
  - intros Hok.
    destruct (pay_success_inv now req s Hok)
      as (j & c & cl & co & Hj & Hp & Hc & Hid & Hcl & Hco & Hbal).
    exists j, c, cl, co. repeat split; try done. by apply Qcnot_lt_le.
  - intros (j & c & cl & co & Hj & Hp & Hc & Hid & Hcl & Hco & Hbal).
    rewrite (pay_funds_checked now req s j c cl co Hj Hp Hc Hid Hcl Hco).
    rewrite bool_decide_false by (by apply Qcle_not_lt). done.
Qed.

(** Extra X1.  A payment succeeds exactly when the job exists and is
    unpaid, its contract exists and names the caller as client, both
    parties' profiles exist, and the client's balance is at least the
    price.  The status of the contract plays no part. *)
Theorem pay_succeeds_iff now req s :
  (app now POST_jobs_pay req s).1 = inr payment_successful
  ↔ ∃ j c cl co,
      jobs (ledger s) !! job_id (params req) = Some j ∧
      paid j = false ∧
      contracts (ledger s) !! ContractId j = Some c ∧
      pk (caller req) = ClientId c ∧
      profiles (ledger s) !! ClientId c = Some cl ∧
      profiles (ledger s) !! ContractorId c = Some co ∧
      price j ≤ balance cl.
Proof. apply pay_success_conditions. Qed.

(** Extra X2.  A payment for a job id that is not in the table is answered
    with 400 [Job not found] after the one lookup, and no table changes. *)
Theorem pay_unknown_job now req s :
  jobs (ledger s) !! job_id (params req) = None →
  (app now POST_jobs_pay req s).1 = inr (mkResponse 400 (JError "Job not found")) ∧
  ledger (app now POST_jobs_pay req s).2 = ledger s ∧
  issued (app now POST_jobs_pay req s).2 = issued s ++ [SelectJob (job_id (params req))].
Proof.
  intros Hj. by rewrite (pay_job_not_found now req s Hj).
Qed.

Lemma pay_unknown_job_witness :
  let req := sample_request 1 77 0 in
  (app sample_now POST_jobs_pay req sample_store).1
    = inr (mkResponse 400 (JError "Job not found")) ∧
  ledger (app sample_now POST_jobs_pay req sample_store).2 = ledger sample_store ∧
  issued (app sample_now POST_jobs_pay req sample_store).2
    = issued sample_store ++ [SelectJob 77].
Proof.
  apply (pay_unknown_job sample_now (sample_request 1 77 0) sample_store).
  vm_compute. reflexivity.
Defined.

(** Every payment is answered, with status 200 or 400. *)
Lemma pay_answers now req s :
  ∃ r, (app now POST_jobs_pay req s).1 = inr r ∧
       (r = payment_successful ∨ statusCode r = 400%Z).
Proof.
  unfold_db.
  destruct (jobs (ledger s) !! job_id (params req)) as [j|]; cbn; [|eauto].
  destruct (paid j); cbn; [eauto|].
  destruct (contracts (ledger s) !! ContractId j) as [c|]; cbn; [|eauto].
  destruct (profiles (ledger s) !! ClientId c) as [cl|];
    destruct (profiles (ledger s) !! ContractorId c) as [co|]; cbn;
    case_bool_decide; cbn; eauto;
    case_bool_decide; cbn; eauto.
Qed.

Lemma pay_outcome now req s :
  ∃ r, (app now POST_jobs_pay req s).1 = inr r ∧
       (r = payment_successful ∨
        statusCode r = 400%Z ∧ ledger (app now POST_jobs_pay req s).2 = ledger s).
Proof.
  destruct (pay_answers now req s) as (r & Hr & Hcases).
  exists r. split; [done|].
  destruct Hcases as [-> | H400]; [by left|right].
  split; [done|].
  apply pay_failure_changes_nothing. rewrite Hr. intros [= ->]. discriminate.
Qed.

(** Extra X3.  A payment is all or nothing: it is answered either with
    the success response or with status 400, and in the second case no
    table has changed, whichever check or missing row stopped it. *)
Theorem pay_all_or_nothing now req s :
  ∃ r, (app now POST_jobs_pay req s).1 = inr r ∧
       (r = payment_successful ∨
        statusCode r = 400%Z ∧ ledger (app now POST_jobs_pay req s).2 = ledger s).
Proof. apply pay_outcome. Qed.

(** The tables a successful payment leaves behind. *)
Lemma pay_success_ledger now req s :
  (app now POST_jobs_pay req s).1 = inr payment_successful →
  ∃ j c cl co,
    jobs (ledger s) !! job_id (params req) = Some j ∧
    paid j = false ∧
    contracts (ledger s) !! ContractId j = Some c ∧
    pk (caller req) = ClientId c ∧
    profiles (ledger s) !! ClientId c = Some cl ∧
    profiles (ledger s) !! ContractorId c = Some co ∧
    price j ≤ balance cl ∧
    ledger (app now POST_jobs_pay req s).2
      = paid_ledger now (job_id (params req)) j c cl co (ledger s).
Proof.
  intros Hok.
  destruct (pay_success_inv now req s Hok)
    as (j & c & cl & co & Hj & Hp & Hc & Hid & Hcl & Hco & Hbal).
  exists j, c, cl, co. repeat split; try done; [by apply Qcnot_lt_le|].
  rewrite (pay_funds_checked now req s j c cl co Hj Hp Hc Hid Hcl Hco).
  by rewrite bool_decide_false.
Qed.

(** Extra X4.  A job is paid at most once: after a successful payment
    every further payment for the same job, by any caller at any time, is
    answered with [Already paid] and changes no table. *)
Theorem pay_twice_rejected now now' req req' s :
  (app now POST_jobs_pay req s).1 = inr payment_successful →
  job_id (params req') = job_id (params req) →
  let s1 := (app now POST_jobs_pay req s).2 in
  (app now' POST_jobs_pay req' s1).1 = inr already_paid ∧
  ledger (app now' POST_jobs_pay req' s1).2 = ledger s1.
Proof.
  intros Hok Hsame s1.
  destruct (pay_success_ledger now req s Hok)
    as (j & c & cl & co & Hj & Hp & Hc & Hid & Hcl & Hco & Hbal & Hl).
  assert (Hj1 : jobs (ledger s1) !! job_id (params req')
                = Some (set_paymentDate (Some now) (set_paid true j))).
  { subst s1. rewrite Hl, Hsame. cbn. by rewrite lookup_alter_eq, Hj. }
  by rewrite (pay_already_paid now' req' s1 _ Hj1).
Qed.

Lemma pay_twice_rejected_witness :
  let s1 := (app sample_now POST_jobs_pay (sample_request 1 1 0) sample_store).2 in
  (app "2020-08-21" POST_jobs_pay (sample_request 2 1 0) s1).1 = inr already_paid ∧
  ledger (app "2020-08-21" POST_jobs_pay (sample_request 2 1 0) s1).2 = ledger s1.
Proof.
  apply (pay_twice_rejected sample_now "2020-08-21"
           (sample_request 1 1 0) (sample_request 2 1 0) sample_store).
  - vm_compute. reflexivity.
  - reflexivity.
Defined.

(** Extra X5.  A successful payment never overdraws the client: when the
    contract has two distinct parties, the client's balance after the
    payment is not negative, whatever it was before. *)
Theorem pay_never_overdraws now req s j c :
  jobs (ledger s) !! job_id (params req) = Some j →
  contracts (ledger s) !! ContractId j = Some c →
  ClientId c ≠ ContractorId c →
  (app now POST_jobs_pay req s).1 = inr payment_successful →
  ∃ cl', profiles (ledger (app now POST_jobs_pay req s).2) !! ClientId c = Some cl' ∧
         0 ≤ balance cl'.
Proof.
  intros Hj Hc Hne Hok.
  destruct (pay_success_ledger now req s Hok)
    as (j' & c' & cl & co & Hj' & Hp & Hc' & Hid & Hcl & Hco & Hbal & Hl).
  assert (j' = j) as -> by congruence. assert (c' = c) as -> by congruence.
  exists (set_balance (balance cl - price j) cl). split.
  - rewrite Hl. cbn. rewrite lookup_alter_ne by congruence.
    by rewrite lookup_alter_eq, Hcl.
  - cbn. apply (Qcplus_le_mono_r _ _ (price j)).
    by replace (balance cl - price j + price j) with (balance cl) by ring;
      rewrite Qcplus_0_l.
Qed.

Lemma pay_never_overdraws_witness :
  ∃ cl', profiles (ledger (app sample_now POST_jobs_pay
                             (sample_request 1 1 0) sample_store).2) !! 1%Z = Some cl' ∧
         0 ≤ balance cl'.
Proof.
  apply (pay_never_overdraws sample_now (sample_request 1 1 0) sample_store
           (mkJob "work" (dec 200 1) false None 1)
           (mkContract "bla bla bla" in_progress "2020-08-10" 1 5)).
  - vm_compute. reflexivity.
  - reflexivity.
  - vm_compute. discriminate.
  - vm_compute. reflexivity.
Defined.

(** ** Deposit *)

(** Extra X9.  A deposit for a user id that is not in the profile table
    is answered with 400 [Client not found]; the outstanding amount is
    not even asked for, and no table changes. *)
Theorem deposit_unknown_profile now req s :
  profiles (ledger s) !! userId (params req) = None →
  (app now POST_balances_deposit req s).1
    = inr (mkResponse 400 (JError "Client not found")) ∧
  ledger (app now POST_balances_deposit req s).2 = ledger s ∧
  issued (app now POST_balances_deposit req s).2
    = issued s ++ [SelectProfile (userId (params req))].
Proof.
  intros Hcl. by rewrite (deposit_client_not_found now req s Hcl).
Qed.

Lemma deposit_unknown_profile_witness :
  let req := sample_request 1 77 (dec 1 1) in
  (app sample_now POST_balances_deposit req sample_store).1
    = inr (mkResponse 400 (JError "Client not found")) ∧
  ledger (app sample_now POST_balances_deposit req sample_store).2
    = ledger sample_store ∧
  issued (app sample_now POST_balances_deposit req sample_store).2
    = issued sample_store ++ [SelectProfile 77].
Proof.
  apply (deposit_unknown_profile sample_now (sample_request 1 77 (dec 1 1)) sample_store).
  vm_compute. reflexivity.
Defined.

(** ** Rows in key order *)

Section TableRows.
Context {A : Type}.

#[local] Instance key_le_trans : Transitive (@key_le A).
Proof. intros x y z. unfold key_le. lia. Qed.

#[local] Instance key_le_total : Total (@key_le A).
Proof. intros x y. unfold key_le. lia. Qed.

Lemma table_rows_Permutation (m : gmap Z A) : table_rows m ≡ₚ map_to_list m.
Proof. apply merge_sort_Permutation. Qed.

Lemma table_rows_elem (m : gmap Z A) k x :
  (k, x) ∈ table_rows m ↔ m !! k = Some x.
Proof. by rewrite table_rows_Permutation, elem_of_map_to_list. Qed.

Lemma key_le_lt (rows : list (Z * A)) :
  StronglySorted key_le rows → NoDup rows.*1 → StronglySorted key_lt rows.
Proof.
  induction 1 as [|r rows Hsorted IH Hall]; intros Hnodup; [constructor|].
  apply NoDup_cons in Hnodup as [Hr Hnodup].
  constructor; [by apply IH|].
  rewrite Forall_forall in *. intros r' Hr'.
  specialize (Hall r' Hr'). unfold key_le, key_lt in *.
  destruct (decide (r.1 = r'.1)) as [Heq|]; [|lia].
  destruct Hr. rewrite Heq. by apply list_elem_of_fmap_2.
Qed.

(** The rows of a table come in strictly ascending order of the key. *)
Lemma table_rows_sorted (m : gmap Z A) : StronglySorted key_lt (table_rows m).
Proof.
  apply key_le_lt.
  - apply StronglySorted_merge_sort; apply _.
  - rewrite table_rows_Permutation. apply NoDup_fst_map_to_list.
Qed.

End TableRows.

Lemma StronglySorted_filter {A} (R : relation A) (P : A → Prop)
    `{∀ x, Decision (P x)} (xs : list A) :
  StronglySorted R xs → StronglySorted R (filter P xs).
Proof.
  induction 1 as [|x xs Hsorted IH Hall]; [constructor|].
  rewrite filter_cons. destruct (decide (P x)); [|done].
  constructor; [done|].
  rewrite Forall_forall in *. intros y Hy.
  apply list_elem_of_filter in Hy as [_ Hy]. by apply Hall.
Qed.

Lemma StronglySorted_lt_NoDup {A} (f : A → Z) (xs : list A) :
  StronglySorted (λ a b, (f a < f b)%Z) xs → NoDup xs.
Proof.
  induction 1 as [|x xs Hsorted IH Hall]; constructor; [|done].
  intros Hx. rewrite Forall_forall in Hall. specialize (Hall x Hx). lia.
Qed.

(** Two lists in strictly ascending order with the same elements are the
    same list. *)
Lemma sorted_unique {A} (f : A → Z) (xs ys : list A) :
  StronglySorted (λ a b, (f a < f b)%Z) xs →
  StronglySorted (λ a b, (f a < f b)%Z) ys →
  (∀ x, x ∈ xs ↔ x ∈ ys) →
  xs = ys.
Proof.
  intros Hxs Hys Hsame.
  apply (StronglySorted_unique_strong (λ a b, (f a < f b)%Z)); try done.
  - intros x y _ _ Hxy Hyx. lia.
  - apply NoDup_Permutation; [by eapply StronglySorted_lt_NoDup..|done].
Qed.

(** ** Listings *)

Ltac unfold_listing :=
  unfold listing_app, listing_handler, listing_middleware,
    get_contracts_id, get_contracts, get_jobs_unpaid,
    Contract_findOne, Contract_findAll, Job_findAll,
    catch_500, and_then, prop; cbn.

(** What the attribute lists of the three handlers keep of a row. *)
Lemma contract_terms_status id c :
  contract_attributes ["terms"; "status"] id c
  = mkRawContract None (Some (terms c)) (Some (status c)) None None None.
Proof. reflexivity. Qed.

Lemma job_description_price j rc :
  job_attributes ["description"; "price"] j rc
  = mkRawJob (Some (description j)) (Some (price j)) None None None rc.
Proof. reflexivity. Qed.

(** Extra X13.  [GET /contracts/:id] never shows a contract: the query
    selects only [terms] and [status], so the [ClientId] and
    [ContractorId] the handler compares with the caller are absent and
    both comparisons fail.  An existing contract is answered with 404,
    also to its own client and contractor; a missing one with 500. *)
Theorem contract_by_id_never_shown id req l :
  (∀ c, contracts l !! id = Some c →
        listing_app (GET_contracts_id id) req l = inr not_found) ∧
  (contracts l !! id = None →
   listing_app (GET_contracts_id id) req l = inr internal_server_error) ∧
  (∀ r, listing_app (GET_contracts_id id) req l = inr r →
        listingStatus r = 404%Z ∨ listingStatus r = 500%Z).
Proof.
  assert (Hrun : listing_app (GET_contracts_id id) req l
                 = inr (match contracts l !! id with
                        | Some _ => not_found
                        | None => internal_server_error
                        end)).
  { unfold_listing. destruct (contracts l !! id) as [c|]; cbn;
      by destruct (type (dataValues (caller req))). }
  rewrite Hrun. split; [|split].
  - by intros c ->.
  - by intros ->.
  - intros r [= <-]. destruct (contracts l !! id); cbn; auto.
Qed.

(** The sample contract 1 is not shown to its client, profile 1. *)
Example sample_contract_hidden :
  listing_app (GET_contracts_id 1) (sample_request 1 1 0) (ledger sample_store)
  = inr not_found.
Proof. reflexivity. Qed.

Lemma party_contracts_elem id l cid c :
  (cid, c) ∈ party_contracts id l
  ↔ contracts l !! cid = Some c ∧
    (ClientId c = id ∨ ContractorId c = id) ∧ status c ≠ terminated.
Proof.
  unfold party_contracts. rewrite list_elem_of_filter, table_rows_elem. cbn.
  tauto.
Qed.

(** In the ledger with the terminated contract, profile 1 is shown its
    contract 1 and not the terminated contract 3. *)
Example sample_contracts_listing :
  listing_app GET_contracts (sample_request 1 1 0) (ledger terminated_store)
  = inr (mkListingResponse 200
           (LContracts [mkRawContract None (Some "bla bla bla") (Some in_progress)
                          None None None])).
Proof. vm_compute. reflexivity. Qed.

Lemma unpaid_jobs_elem id l jid j cid c :
  ((jid, j), (cid, c)) ∈ unpaid_jobs id l
  ↔ jobs l !! jid = Some j ∧ paid j = false ∧ cid = ContractId j ∧
    contracts l !! cid = Some c ∧ status c = in_progress ∧
    (ClientId c = id ∨ ContractorId c = id).
Proof.
  unfold unpaid_jobs. rewrite list_elem_of_bind. split.
  - intros ([jid' j'] & Hin & Hj). apply table_rows_elem in Hj.
    destruct (paid j') eqn:Hp; [by apply elem_of_nil in Hin|].
    destruct (contracts l !! ContractId j') as [c'|] eqn:Hc;
      [|by apply elem_of_nil in Hin].
    case_bool_decide as Hcond; [|by apply elem_of_nil in Hin].
    apply list_elem_of_singleton in Hin. injection Hin as -> -> -> ->.
    by destruct Hcond.
  - intros (Hj & Hp & -> & Hc & Hst & Hparty).
    exists (jid, j). split; [|by apply table_rows_elem].
    rewrite Hp, Hc, bool_decide_true by done. left.
Qed.

(** Extra X16.  Paying a job takes it off the unpaid listing and changes
    nothing else there: for every profile, the rows listed before the
    payment are the rows listed after it together with the row of the job
    paid, if that job was listed for the profile at all. *)
Theorem pay_removes_from_unpaid_listing now req s j c attributes include_attributes id :
  jobs (ledger s) !! job_id (params req) = Some j →
  contracts (ledger s) !! ContractId j = Some c →
  (app now POST_jobs_pay req s).1 = inr payment_successful →
  let l' := ledger (app now POST_jobs_pay req s).2 in
  Job_findAll attributes include_attributes id (ledger s)
  ≡ₚ (if bool_decide (status c = in_progress ∧ (ClientId c = id ∨ ContractorId c = id))
      then [job_attributes attributes j
              (contract_attributes include_attributes (ContractId j) c)]
      else [])
     ++ Job_findAll attributes include_attributes id l'.
Proof.
  intros Hj Hc Hok l'.
  destruct (pay_success_ledger now req s Hok)
    as (j' & c' & cl & co & Hj' & Hp & Hc' & Hid & Hcl & Hco & Hbal & Hl).
  assert (j' = j) as -> by congruence. assert (c' = c) as -> by congruence.
  subst l'. rewrite Hl. unfold Job_findAll, unpaid_jobs, paid_ledger. cbn.
  rewrite !table_rows_Permutation.
  rewrite (map_to_list_alter_Some _ _ _ j Hj).
  rewrite <- (map_to_list_delete _ _ _ Hj).
  rewrite !bind_cons. cbn. rewrite Hp, Hc. cbn.
  rewrite fmap_app. apply Permutation_app; [|done].
  by case_bool_decide.
Qed.

Lemma pay_removes_from_unpaid_listing_witness :
  let l' := ledger (app sample_now POST_jobs_pay
                      (sample_request 1 1 0) sample_store).2 in
  Job_findAll ["description"; "price"] ["terms"; "status"] 5 (ledger sample_store)
  ≡ₚ (if bool_decide (in_progress = in_progress ∧ (1%Z = 5%Z ∨ 5%Z = 5%Z))
      then [job_attributes ["description"; "price"]
              (mkJob "work" (dec 200 1) false None 1)
              (contract_attributes ["terms"; "status"] 1
                 (mkContract "bla bla bla" in_progress "2020-08-10" 1 5))]
      else [])
     ++ Job_findAll ["description"; "price"] ["terms"; "status"] 5 l'.
Proof.
  apply (pay_removes_from_unpaid_listing sample_now (sample_request 1 1 0) sample_store
           (mkJob "work" (dec 200 1) false None 1)
           (mkContract "bla bla bla" in_progress "2020-08-10" 1 5)
           ["description"; "price"] ["terms"; "status"] 5).
  - vm_compute. reflexivity.
  - reflexivity.
  - vm_compute. reflexivity.
Defined.

(** Extra X17.  The three views of unpaid work do not agree on the status
    of the contract.  An unpaid job of a contract that is not in progress
    (new or terminated) is never on the unpaid listing of anyone, yet it
    counts towards its client's outstanding amount, and its client can
    pay for it like for any other job. *)
Theorem job_of_inactive_contract now req s j c cl co :
  jobs (ledger s) !! job_id (params req) = Some j →
  paid j = false →
  contracts (ledger s) !! ContractId j = Some c →
  status c ≠ in_progress →
  pk (caller req) = ClientId c →
  profiles (ledger s) !! ClientId c = Some cl →
  profiles (ledger s) !! ContractorId c = Some co →
  price j ≤ balance cl →
  (∀ id r, r ∈ unpaid_jobs id (ledger s) → r.1.1 ≠ job_id (params req)) ∧
  j ∈ outstanding_jobs (ClientId c) (ledger s) ∧
  (app now POST_jobs_pay req s).1 = inr payment_successful.
Proof.
  intros Hj Hp Hc Hst Hid Hcl Hco Hbal. split; [|split].
  - intros id [[jid j'] [cid c']] Hin Heq. cbn in Heq. subst jid.
    apply unpaid_jobs_elem in Hin as (Hj' & _ & -> & Hc' & Hst' & _).
    assert (j' = j) as -> by congruence. congruence.
  - unfold outstanding_jobs. apply list_elem_of_filter. split.
    + by rewrite Hc.
    + apply list_elem_of_fmap. exists (job_id (params req), j). split; [done|].
      by apply elem_of_map_to_list.
  - apply pay_success_conditions. by exists j, c, cl, co.
Qed.

Lemma job_of_inactive_contract_witness :
  let req := sample_request 1 6 0 in
  let s := terminated_store in
  (∀ id r, r ∈ unpaid_jobs id (ledger s) → r.1.1 ≠ 6%Z) ∧
  mkJob "work" (dec 400 1) false None 3 ∈ outstanding_jobs 1 (ledger s) ∧
  (app sample_now POST_jobs_pay req s).1 = inr payment_successful.
Proof.
  apply (job_of_inactive_contract sample_now (sample_request 1 6 0) terminated_store
           (mkJob "work" (dec 400 1) false None 3)
           (mkContract "bla bla bla" terminated "2020-08-09" 1 6)
           (mkProfile "Harry" "Potter" "Wizard" (dec 1150 1) type_client)
           (mkProfile "Linus" "Torvalds" "Programmer" (dec 1214 1) type_contractor)).
  - vm_compute. reflexivity.
  - reflexivity.
  - vm_compute. reflexivity.
  - discriminate.
  - reflexivity.
  - vm_compute. reflexivity.
  - vm_compute. reflexivity.
  - by vm_compute.
Defined.

(** ** The best-clients report *)

Section Ranking.
Context {K : Type} `{EqDecision K}.

#[local] Existing Instance sum_desc_trans.
#[local] Existing Instance sum_desc_total.

(** [LIMIT n] keeps a prefix; what it cuts off is not empty only when
    [n] is not negative and [n] rows were kept. *)
Lemma sql_limit_prefix (n : Z) (rows : list (K * Qc)) :
  ∃ rest, rows = sql_limit n rows ++ rest ∧
          (rest ≠ [] → (0 ≤ n)%Z ∧ length (sql_limit n rows) = Z.to_nat n).
Proof.
  unfold sql_limit. destruct (n <? 0)%Z eqn:Hn.
  - exists []. by rewrite app_nil_r.
  - exists (drop (Z.to_nat n) rows). split; [by rewrite take_drop|].
    intros Hrest. split; [lia|].
    apply length_take_le.
    destruct (decide (Z.to_nat n ≤ length rows)%nat) as [|Hgt]; [done|].
    destruct Hrest. apply drop_ge. lia.
Qed.

Lemma sql_limit_length (n : Z) (rows : list (K * Qc)) :
  (0 ≤ n)%Z → (length (sql_limit n rows) ≤ Z.to_nat n)%nat.
Proof.
  intros Hn. unfold sql_limit.
  destruct (n <? 0)%Z eqn:Hlt; [lia|]. rewrite length_take. lia.
Qed.

Lemma sql_limit_all (n : Z) (rows : list (K * Qc)) :
  (n < 0)%Z → sql_limit n rows = rows.
Proof.
  intros Hn. unfold sql_limit. destruct (n <? 0)%Z eqn:Hlt; [done|lia].
Qed.

(** The rows of [... GROUP BY k ORDER BY sum DESC LIMIT n]. *)
Lemma ranking_sorted (n : Z) (rows : list (K * Qc)) :
  StronglySorted sum_desc (sql_limit n (order_by_desc (group_by_sum rows))).
Proof.
  destruct (sql_limit_prefix n (order_by_desc (group_by_sum rows)))
    as (rest & Happ & _).
  pose proof (StronglySorted_merge_sort sum_desc (group_by_sum rows)) as Hss.
  fold (order_by_desc (group_by_sum rows)) in Hss. rewrite Happ in Hss.
  by apply StronglySorted_app_1_l in Hss.
Qed.

Lemma ranking_elem (n : Z) (rows : list (K * Qc)) r :
  r ∈ sql_limit n (order_by_desc (group_by_sum rows)) →
  r.1 ∈ rows.*1 ∧ r.2 = group_sum r.1 rows.
Proof.
  intros Hr. apply group_by_sum_elem.
  destruct (sql_limit_prefix n (order_by_desc (group_by_sum rows)))
    as (rest & Happ & _).
  rewrite <- (merge_sort_Permutation sum_desc (group_by_sum rows)).
  fold (order_by_desc (group_by_sum rows)). rewrite Happ.
  apply elem_of_app. by left.
Qed.

Lemma ranking_NoDup (n : Z) (rows : list (K * Qc)) :
  NoDup (sql_limit n (order_by_desc (group_by_sum rows))).*1.
Proof.
  destruct (sql_limit_prefix n (order_by_desc (group_by_sum rows)))
    as (rest & Happ & _).
  assert (Hall : NoDup (order_by_desc (group_by_sum rows)).*1).
  { unfold order_by_desc. rewrite merge_sort_Permutation.
    unfold group_by_sum.
    assert (Hkeys : ∀ ks : list K, ((λ k, (k, group_sum k rows)) <$> ks).*1 = ks).
    { intros ks. induction ks as [|k ks IH]; [done|]. cbn. by rewrite IH. }
    rewrite Hkeys. apply NoDup_remove_dups. }
  rewrite Happ, fmap_app in Hall. by apply NoDup_app in Hall as [? _].
Qed.

End Ranking.

Lemma client_jobs_elem a b cid l j :
  j ∈ client_jobs a b cid l
  ↔ ∃ jid c, jobs l !! jid = Some j ∧ contracts l !! ContractId j = Some c ∧
             ClientId c = cid ∧ between a b (Some (createdAt c)) = true.
Proof.
  unfold client_jobs. rewrite list_elem_of_filter, list_elem_of_fmap. split.
  - intros [Hc ([jid j'] & -> & Hj)]. cbn in *. apply elem_of_map_to_list in Hj.
    destruct (contracts l !! ContractId j') as [c|] eqn:Hcj; [|done].
    injection Hc as <- Hw. by exists jid, c.
  - intros (jid & c & Hj & Hc & <- & Hw). split.
    + rewrite Hc.
      change (Some (ClientId c, between a b (Some (createdAt c)))
              = Some (ClientId c, true)).
      by rewrite Hw.
    + exists (jid, j). split; [done|]. by apply elem_of_map_to_list.
Qed.

(** A key has rows in the join exactly when it is the id and the names
    of a profile that is the client of a contract created in the window
    with at least one job. *)
Lemma best_clients_rows_keys a b l cid first last :
  (cid, first, last) ∈ (best_clients_rows a b l).*1
  ↔ ∃ cl, profiles l !! cid = Some cl ∧ first = firstName cl ∧ last = lastName cl ∧
          ∃ j, j ∈ client_jobs a b cid l.
Proof.
  unfold best_clients_rows. split.
  - intros Hk. apply list_elem_of_fmap in Hk as ([k x] & Hkey & Hin). cbn in Hkey.
    subst k. apply list_elem_of_bind in Hin as ([jid j] & Hin & Hj).
    apply elem_of_map_to_list in Hj.
    destruct (contracts l !! ContractId j) as [c|] eqn:Hc;
      [|by apply elem_of_nil in Hin].
    destruct (profiles l !! ClientId c) as [cl|] eqn:Hcl;
      [|by apply elem_of_nil in Hin].
    destruct (between a b (Some (createdAt c))) eqn:Hw;
      [|by apply elem_of_nil in Hin].
    apply list_elem_of_singleton in Hin. injection Hin as -> -> -> ->.
    exists cl. repeat split; try done.
    exists j. apply client_jobs_elem. by exists jid, c.
  - intros (cl & Hcl & -> & -> & j & Hj).
    apply client_jobs_elem in Hj as (jid & c & Hj & Hc & <- & Hw).
    apply list_elem_of_fmap.
    exists ((ClientId c, firstName cl, lastName cl), price j). split; [done|].
    apply list_elem_of_bind. exists (jid, j). split; [|by apply elem_of_map_to_list].
    rewrite Hc, Hcl, Hw. left.
Qed.


Lemma best_clients_run now req s a b n :
  start (query req) = Some a → a ≠ "" →
  end_ (query req) = Some b → b ≠ "" →
  queryLimit_of (query req) = Some n →
  limit_in_range n = true →
  app now GET_admin_best_clients req s =
    (inr (mkResponse 200
            (JRows (client_row <$>
                      sql_limit n (order_by_desc
                                     (group_by_sum (best_clients_rows a b (ledger s))))))),
     mkStore (ledger s) (issued s ++ [SelectBestClients a b (Some n)])).
Proof.
  intros Ha Hane Hb Hbne Hn Hrange. unfold queryLimit_of in Hn. unfold_db.
  rewrite Ha, Hb. cbn. rewrite !bool_decide_false by done. cbn.
  by rewrite Hn, Hrange.
Qed.


(** In the sample ledger client 1 has jobs of 200, 800 and 100, of which
    only the last is paid, and the report shows 1100 as paid. *)
Example sample_best_clients :
  ∃ rows,
    (app sample_now GET_admin_best_clients (sample_request 1 1 0) sample_store).1
      = inr (mkResponse 200 (JRows rows)) ∧
    (λ r, (row_id r, fullName r, this (row_paid r))) <$> rows
      = [(1%Z, "Harry Potter", 1100%Q); (2%Z, "Mr Robot", 170%Q)].
Proof. eexists. split; [reflexivity|]. vm_compute. reflexivity. Qed.

(** ** How the operations work together *)






Lemma client_total_pointwise a b l cid :
  client_total a b l cid
  = sumQc ((λ j, if decide ((λ c, (ClientId c, between a b (Some (createdAt c))))
                              <$> contracts l !! ContractId j = Some (cid, true))
                 then price j else 0) <$> (map_to_list (jobs l)).*2).
Proof.
  unfold client_total, client_jobs. by rewrite sumQc_filter.
Qed.

(** Extra X22.  The best-clients figures do not react to payments: the
    total reported as [paid] for a client is the same before and after
    any payment call, whoever pays which job. *)
Theorem pay_leaves_client_totals now req s a b cid :
  client_total a b (ledger (app now POST_jobs_pay req s).2) cid
  = client_total a b (ledger s) cid.
Proof.
  destruct (pay_outcome now req s) as (r & Hr & [-> | [_ Hl]]);
    [|by rewrite Hl].
  destruct (pay_success_ledger now req s Hr)
    as (j & c & cl & co & Hj & Hp & Hc & Hid & Hcl & Hco & Hbal & Hl).
  rewrite Hl, !client_total_pointwise. cbn [jobs contracts paid_ledger].
  rewrite (sumQc_alter _ _ _ _ j Hj). cbn -[between]. ring.
Qed.

(** Extra X24.  Neither report ever writes: whatever the request, with
    or without bounds and whatever the limit, the tables after the call
    are the tables before it. *)
Theorem reports_never_write now r req s :
  r = GET_admin_best_profession ∨ r = GET_admin_best_clients →
  ledger (app now r req s).2 = ledger s.
Proof.
  intros [-> | ->]; [apply best_profession_read_only | apply best_clients_read_only].
Qed.

Lemma reports_never_write_witness :
  ledger (app sample_now GET_admin_best_clients (sample_request 1 1 0) sample_store).2
  = ledger sample_store.
Proof.
  apply (reports_never_write sample_now GET_admin_best_clients
           (sample_request 1 1 0) sample_store).
  right. reflexivity.
Defined.

(** * The handlers in binary64 *)

Section Binary64Properties.
Import Binary64.

Ltac unfold_b64 :=
  unfold app, handler, middleware, post_jobs_pay, post_balances_deposit,
    try_catch, transaction, pay_transaction, deposit_transaction,
    Promise_all, Job_findByPk, Profile_findByPk, Profile_save, Job_save,
    Job_sum_price, maxDepositAmount, bind, ret, throw, select, update; cbn.

(** ** Payment *)

Lemma b64_pay_funds_checked now req s j c cl co :
  jobs (ledger s) !! job_id (params req) = Some j →
  paid j = false →
  contracts (ledger s) !! ContractId j = Some c →
  pk (caller req) = ClientId c →
  profiles (ledger s) !! ClientId c = Some cl →
  profiles (ledger s) !! ContractorId c = Some co →
  app now POST_jobs_pay req s =
    if PrimFloat.ltb (balance cl) (price j)
    then (inr insufficient_funds,
          mkStore (ledger s) (issued s ++ pay_statements (job_id (params req)) c))
    else (inr payment_successful,
          mkStore (paid_ledger now (job_id (params req)) j c cl co (ledger s))
            (issued s ++ pay_statements (job_id (params req)) c ++
               [UpdateProfile (ClientId c); UpdateProfile (ContractorId c);
                UpdateJob (job_id (params req))])).
Proof.
  intros Hj Hp Hc Hid Hcl Hco. unfold_b64. rewrite Hj. cbn. rewrite Hp, Hc. cbn.
  rewrite Hcl, Hco. cbn. rewrite bool_decide_false by (intros H; congruence). cbn.
  destruct (PrimFloat.ltb (balance cl) (price j)); cbn;
    rewrite <- !app_assoc; reflexivity.
Qed.

Lemma b64_pay_success_inv now req s :
  (app now POST_jobs_pay req s).1 = inr payment_successful →
  ∃ j c cl co,
    jobs (ledger s) !! job_id (params req) = Some j ∧
    paid j = false ∧
    contracts (ledger s) !! ContractId j = Some c ∧
    pk (caller req) = ClientId c ∧
    profiles (ledger s) !! ClientId c = Some cl ∧
    profiles (ledger s) !! ContractorId c = Some co ∧
    PrimFloat.ltb (balance cl) (price j) = false ∧
    ledger (app now POST_jobs_pay req s).2
      = paid_ledger now (job_id (params req)) j c cl co (ledger s).
Proof.
  intros Hok.
  assert (Hinv : ∃ j c cl co,
    jobs (ledger s) !! job_id (params req) = Some j ∧
    paid j = false ∧
    contracts (ledger s) !! ContractId j = Some c ∧
    pk (caller req) = ClientId c ∧
    profiles (ledger s) !! ClientId c = Some cl ∧
    profiles (ledger s) !! ContractorId c = Some co ∧
    PrimFloat.ltb (balance cl) (price j) = false).
  { revert Hok. unfold_b64.
    destruct (jobs (ledger s) !! job_id (params req)) as [j|] eqn:Hj; cbn; [|discriminate].
    destruct (paid j) eqn:Hp; cbn; [discriminate|].
    destruct (contracts (ledger s) !! ContractId j) as [c|] eqn:Hc; cbn; [|discriminate].
    destruct (profiles (ledger s) !! ClientId c) as [cl|] eqn:Hcl;
      destruct (profiles (ledger s) !! ContractorId c) as [co|] eqn:Hco; cbn;
      case_bool_decide as Hid; cbn; try discriminate.
    - destruct (PrimFloat.ltb (balance cl) (price j)) eqn:Hbal; cbn; [discriminate|].
      intros _. exists j, c, cl, co. repeat split; try done.
      all: destruct (decide (pk (caller req) = ClientId c)); [done|];
        destruct Hid; congruence.
    - destruct (PrimFloat.ltb (balance cl) (price j)); cbn; discriminate. }
  destruct Hinv as (j & c & cl & co & Hj & Hp & Hc & Hid & Hcl & Hco & Hbal).
  exists j, c, cl, co. repeat split; try done.
  rewrite (b64_pay_funds_checked now req s j c cl co Hj Hp Hc Hid Hcl Hco).
  by rewrite Hbal.
Qed.




(** The sample payment in figures: 200 goes from 1150 to 64. *)
Example sample_payment :
  let l' := ledger (app sample_now POST_jobs_pay
                      (sample_request 1 1 0%float) sample_store).2 in
  balance <$> profiles l' !! 1%Z = Some 950%float ∧
  balance <$> profiles l' !! 5%Z = Some 264%float.
Proof. split; vm_compute; reflexivity. Qed.

(** A contract that names one profile as both parties: the two [save]
    calls write the same row, and the second one, the credit, stands. *)
Lemma b64_paid_ledger_self now jid j c cl l :
  ContractorId c = ClientId c →
  profiles l !! ClientId c = Some cl →
  profiles (paid_ledger now jid j c cl cl l) !! ClientId c
    = Some (set_balance (PrimFloat.add (balance cl) (price j)) cl).
Proof.
  intros Hself Hcl. unfold paid_ledger. cbn. rewrite Hself.
  rewrite !lookup_alter_eq, Hcl. reflexivity.
Qed.

(** X7.  When a contract names the same profile as client and as
    contractor, paying one of its jobs succeeds whenever the balance is
    not below the price, and the balance stored afterwards is the binary64
    sum of the old balance and the price: the debit is overwritten by the
    credit. *)
Theorem pay_self_contract_credit_stands now req s j c cl :
  jobs (ledger s) !! job_id (params req) = Some j →
  paid j = false →
  contracts (ledger s) !! ContractId j = Some c →
  pk (caller req) = ClientId c →
  ContractorId c = ClientId c →
  profiles (ledger s) !! ClientId c = Some cl →
  PrimFloat.ltb (balance cl) (price j) = false →
  (app now POST_jobs_pay req s).1 = inr payment_successful ∧
  balance <$> profiles (ledger (app now POST_jobs_pay req s).2) !! ClientId c
    = Some (PrimFloat.add (balance cl) (price j)).
Proof.
  intros Hj Hp Hc Hid Hself Hcl Hbal.
  assert (Hco : profiles (ledger s) !! ContractorId c = Some cl) by by rewrite Hself.
  rewrite (b64_pay_funds_checked now req s j c cl cl Hj Hp Hc Hid Hcl Hco), Hbal.
  split; [done|]. cbn -[paid_ledger]. by rewrite b64_paid_ledger_self.
Qed.

Lemma pay_self_contract_credit_stands_witness :
  (app sample_now POST_jobs_pay (sample_request 1 9 0%float) self_contract_store).1
    = inr payment_successful ∧
  balance <$> profiles (ledger (app sample_now POST_jobs_pay
                                  (sample_request 1 9 0%float) self_contract_store).2)
                !! 1%Z
    = Some (PrimFloat.add 1150 300).
Proof.
  apply (pay_self_contract_credit_stands sample_now (sample_request 1 9 0%float)
           self_contract_store
           (mkJob "work" 300%float false None 9)
           (mkContract "bla bla bla" in_progress "2020-08-12" 1 1)
           (mkProfile "Harry" "Potter" "Wizard" 1150%float type_client));
    vm_compute; reflexivity.
Defined.

(** ** The rows a deposit adds up *)

Lemma outstanding_jobs_elem userId l jid j :
  (jid, j) ∈ outstanding_jobs userId l
  ↔ jobs l !! jid = Some j ∧ paid j = false ∧
    ∃ c, contracts l !! ContractId j = Some c ∧ ClientId c = userId.
Proof.
  unfold outstanding_jobs. rewrite list_elem_of_filter, table_rows_elem. cbn.
  split.
  - intros [[Hp Hc] Hj]. split; [done|]. split; [done|].
    destruct (contracts l !! ContractId j) as [c|]; [|done].
    exists c. split; [done|]. by injection Hc.
  - intros (Hj & Hp & c & Hc & Hid). repeat split; try done.
    rewrite Hc. cbn. by rewrite Hid.
Qed.

Lemma outstanding_jobs_sorted userId l :
  StronglySorted key_lt (outstanding_jobs userId l).
Proof. apply StronglySorted_filter, table_rows_sorted. Qed.

(** The rows the sum goes over are the unpaid jobs of the client's
    contracts, each once, in the order of their ids, and no other list is. *)
Lemma outstanding_jobs_spec userId l :
  unpaid_jobs_of userId l (outstanding_jobs userId l).
Proof.
  split; [apply outstanding_jobs_sorted|]. intros. apply outstanding_jobs_elem.
Qed.

Lemma unpaid_jobs_of_unique userId l rows :
  unpaid_jobs_of userId l rows → outstanding_jobs userId l = rows.
Proof.
  intros [Hsorted Helem].
  apply (sorted_unique fst); [apply outstanding_jobs_sorted|done|].
  intros [jid j]. by rewrite outstanding_jobs_elem, Helem.
Qed.

Lemma b64_maxDepositAmount_rows userId l rows :
  unpaid_jobs_of userId l rows →
  maxDepositAmount userId l
    = PrimFloat.mul 0.25 (sql_sum ((λ r, price r.2) <$> rows)).
Proof.
  intros <-%unpaid_jobs_of_unique. unfold maxDepositAmount, Job_sum.
  by destruct (outstanding_jobs userId l).
Qed.

(** ** Deposit *)

Lemma b64_deposit_run now req s cl :
  profiles (ledger s) !! userId (params req) = Some cl →
  app now POST_balances_deposit req s =
    if PrimFloat.ltb (maxDepositAmount (userId (params req)) (ledger s))
                     (depositAmount (body req))
    then (inr limit_exceeded,
          mkStore (ledger s)
            (issued s ++ [SelectProfile (userId (params req));
                          SumOutstanding (userId (params req))]))
    else (inr deposit_successful,
          mkStore
            (set_profiles
               (alter (set_balance (PrimFloat.add (balance cl)
                                      (depositAmount (body req))))
                      (userId (params req)) (profiles (ledger s)))
               (ledger s))
            (issued s ++ [SelectProfile (userId (params req));
                          SumOutstanding (userId (params req));
                          UpdateProfile (userId (params req))])).
Proof.
  intros Hcl. unfold_b64. rewrite Hcl. cbn.
  unfold mul_nullable.
  destruct (PrimFloat.ltb _ _); cbn; rewrite <- !app_assoc; reflexivity.
Qed.

Lemma b64_deposit_balance now req s cl :
  profiles (ledger s) !! userId (params req) = Some cl →
  PrimFloat.ltb (maxDepositAmount (userId (params req)) (ledger s))
                (depositAmount (body req)) = false →
  (app now POST_balances_deposit req s).1 = inr deposit_successful ∧
  profiles (ledger (app now POST_balances_deposit req s).2) !! userId (params req)
    = Some (set_balance (PrimFloat.add (balance cl) (depositAmount (body req))) cl).
Proof.
  intros Hcl Hle. rewrite (b64_deposit_run now req s cl Hcl), Hle. cbn.
  by rewrite lookup_alter_eq, Hcl.
Qed.

(** Claim C5 as it is worded does not hold: the ceiling is a quarter of
    the binary64 sum of the prices, which need not be their sum.  With
    unpaid jobs of 0.1 and 0.2 the store's sum is 0.30000000000000004, and
    a deposit of 0.07500000000000001 is accepted although it is more than
    a quarter of the sum of the two prices.  With unpaid jobs of 0.1 and
    0.7 the store's sum is 0.7999999999999999, and a deposit of 0.2 is
    refused. *)
Lemma deposit_ceiling_is_rounded :
  (let r := app sample_now POST_balances_deposit
              (sample_request 1 1 0.07500000000000001%float) rounding_store in
   outstanding_jobs 1 (ledger rounding_store)
     = [(1%Z, mkJob "work" 0.1%float false None 1);
        (2%Z, mkJob "work" 0.2%float false None 1)] ∧
   Qlt ((1 # 4) * (exact 0.1 + exact 0.2)) (exact 0.07500000000000001) ∧
   r.1 = inr deposit_successful ∧
   balance <$> profiles (ledger r.2) !! 1%Z = Some 0.375%float) ∧
  (let r := app sample_now POST_balances_deposit
              (sample_request 1 1 0.2%float) rounding_store' in
   outstanding_jobs 1 (ledger rounding_store')
     = [(1%Z, mkJob "work" 0.1%float false None 1);
        (2%Z, mkJob "work" 0.7%float false None 1)] ∧
   Job_sum 1 (ledger rounding_store') = Some 0.7999999999999999%float ∧
   r.1 = inr limit_exceeded ∧
   ledger r.2 = ledger rounding_store').
Proof. split; cbv zeta; repeat split; vm_compute; reflexivity. Qed.

(** Claim C5, amended.  Let [rows] be the unpaid jobs of the contracts
    that have the credited profile as client, each once and in the order
    of their ids, and let the outstanding amount be the binary64 sum of
    their prices, added up row after row from zero.  A deposit to an
    existing profile is refused with "Deposit amount exceeds the maximum
    allowed" exactly when the amount is greater than the binary64 product
    of 0.25 and the outstanding amount, and succeeds otherwise, the stored
    balance being the binary64 sum of the balance and the amount.  With
    1000 outstanding a deposit of 250 succeeds and one of 250.01 is
    refused. *)
Theorem deposit_limit now req s cl rows :
  profiles (ledger s) !! userId (params req) = Some cl →
  unpaid_jobs_of (userId (params req)) (ledger s) rows →
  let r := app now POST_balances_deposit req s in
  let out := sql_sum ((λ r, price r.2) <$> rows) in
  let amount := depositAmount (body req) in
  (r.1 = inr limit_exceeded ↔ PrimFloat.ltb (PrimFloat.mul 0.25 out) amount = true) ∧
  (r.1 = inr deposit_successful
   ↔ PrimFloat.ltb (PrimFloat.mul 0.25 out) amount = false) ∧
  (r.1 = inr limit_exceeded → ledger r.2 = ledger s) ∧
  (r.1 = inr deposit_successful →
   balance <$> profiles (ledger r.2) !! userId (params req)
     = Some (PrimFloat.add (balance cl) amount)) ∧
  (out = 1000%float → amount = 250%float → r.1 = inr deposit_successful) ∧
  (out = 1000%float → amount = 250.01%float → r.1 = inr limit_exceeded).
Proof.
  intros Hcl Hrows r out amount. subst r.
  rewrite (b64_deposit_run now req s cl Hcl).
  rewrite (b64_maxDepositAmount_rows _ _ rows Hrows). fold out amount.
  split_and!.
  - destruct (PrimFloat.ltb _ amount); cbn; split; done.
  - destruct (PrimFloat.ltb _ amount); cbn; split; done.
  - destruct (PrimFloat.ltb _ amount); cbn; done.
  - destruct (PrimFloat.ltb _ amount); cbn; [done|]. intros _.
    by rewrite lookup_alter_eq, Hcl.
  - intros -> ->. reflexivity.
  - intros -> ->. reflexivity.
Qed.

Lemma deposit_limit_witness :
  sql_sum ((λ r, price r.2) <$> outstanding_jobs 1 (ledger sample_store))
    = 1000%float ∧
  (app sample_now POST_balances_deposit (sample_request 1 1 250%float) sample_store).1
    = inr deposit_successful ∧
  balance <$> profiles (ledger (app sample_now POST_balances_deposit
                                  (sample_request 1 1 250%float) sample_store).2)
                !! 1%Z
    = Some 1400%float ∧
  (app sample_now POST_balances_deposit (sample_request 1 1 250.01%float)
     sample_store).1
    = inr limit_exceeded.
Proof.
  assert (Hout : sql_sum ((λ r, price r.2)
                            <$> outstanding_jobs 1 (ledger sample_store))
                 = 1000%float) by (vm_compute; reflexivity).
  assert (Hcl : profiles (ledger sample_store) !! 1%Z
                = Some (mkProfile "Harry" "Potter" "Wizard" 1150%float type_client))
    by (vm_compute; reflexivity).
  split; [exact Hout|].
  destruct (deposit_limit sample_now (sample_request 1 1 250%float) sample_store
              _ _ Hcl (outstanding_jobs_spec 1 (ledger sample_store)))
    as (_ & _ & _ & Hbal & Hok & _).
  destruct (deposit_limit sample_now (sample_request 1 1 250.01%float) sample_store
              _ _ Hcl (outstanding_jobs_spec 1 (ledger sample_store)))
    as (_ & _ & _ & _ & _ & Hno).
  split; [apply Hok; [exact Hout|reflexivity]|].
  split; [apply Hbal, Hok; [exact Hout|reflexivity]|].
  apply Hno; [exact Hout|reflexivity].
Defined.

(** Claim C9 as it is worded does not hold: the stored balance is the
    binary64 sum, and a negative amount need not lower it.  A deposit of
    -1e-20 to a balance of 1150 succeeds and leaves 1150. *)
Lemma deposit_negative_absorbed :
  let r := app sample_now POST_balances_deposit
             (sample_request 1 1 (-1e-20)%float) sample_store in
  PrimFloat.ltb (-1e-20) 0 = true ∧
  balance <$> profiles (ledger sample_store) !! 1%Z = Some 1150%float ∧
  r.1 = inr deposit_successful ∧
  balance <$> profiles (ledger r.2) !! 1%Z = Some 1150%float.
Proof. cbv zeta. repeat split; vm_compute; reflexivity. Qed.

(** Claim C9, amended.  Whatever the amount, zero or negative included, a
    deposit to an existing profile that is not greater than the ceiling
    succeeds, and the stored balance is the binary64 sum of the balance
    and the amount.  So a negative amount can lower the balance: a
    deposit of -100 takes 1150 to 1050. *)
Theorem deposit_any_amount_within_ceiling now req s cl :
  profiles (ledger s) !! userId (params req) = Some cl →
  PrimFloat.ltb (maxDepositAmount (userId (params req)) (ledger s))
                (depositAmount (body req)) = false →
  ∃ cl',
    (app now POST_balances_deposit req s).1 = inr deposit_successful ∧
    profiles (ledger (app now POST_balances_deposit req s).2) !! userId (params req)
      = Some cl' ∧
    balance cl' = PrimFloat.add (balance cl) (depositAmount (body req)) ∧
    (balance cl = 1150%float → depositAmount (body req) = (-100)%float →
     balance cl' = 1050%float).
Proof.
  intros Hcl Hle.
  destruct (b64_deposit_balance now req s cl Hcl Hle) as [Hok Hcl'].
  eexists. split; [done|]. split; [exact Hcl'|]. split; [done|].
  cbn. intros -> ->. reflexivity.
Qed.

Lemma deposit_any_amount_within_ceiling_witness :
  ∃ cl',
    (app sample_now POST_balances_deposit (sample_request 1 1 (-100)%float)
       sample_store).1 = inr deposit_successful ∧
    profiles (ledger (app sample_now POST_balances_deposit
                        (sample_request 1 1 (-100)%float) sample_store).2) !! 1%Z
      = Some cl' ∧
    balance cl' = PrimFloat.add 1150 (-100) ∧
    (1150%float = 1150%float → (-100)%float = (-100)%float →
     balance cl' = 1050%float).
Proof.
  apply (deposit_any_amount_within_ceiling sample_now
           (sample_request 1 1 (-100)%float) sample_store
           (mkProfile "Harry" "Potter" "Wizard" 1150%float type_client));
    vm_compute; reflexivity.
Defined.

Lemma b64_deposit_client_not_found now req s :
  profiles (ledger s) !! userId (params req) = None →
  app now POST_balances_deposit req s
    = (inr (mkResponse 400 (JError "Client not found")),
       mkStore (ledger s) (issued s ++ [SelectProfile (userId (params req))])).
Proof. intros Hcl. unfold_b64. rewrite Hcl. reflexivity. Qed.

Lemma b64_deposit_outcome now req s :
  let r := app now POST_balances_deposit req s in
  (∃ e, r.1 = inr (mkResponse 400 (JError e)) ∧ ledger r.2 = ledger s) ∨
  (r.1 = inr deposit_successful ∧
   ∃ cl, profiles (ledger s) !! userId (params req) = Some cl ∧
         profiles (ledger r.2)
           = <[userId (params req) :=
                 set_balance (PrimFloat.add (balance cl) (depositAmount (body req))) cl]>
               (profiles (ledger s)) ∧
         jobs (ledger r.2) = jobs (ledger s) ∧
         contracts (ledger r.2) = contracts (ledger s)).
Proof.
  intros r. subst r.
  destruct (profiles (ledger s) !! userId (params req)) as [cl|] eqn:Hcl.
  - rewrite (b64_deposit_run now req s cl Hcl).
    destruct (PrimFloat.ltb _ _); cbn; [left; eauto|right].
    split; [done|]. exists cl. repeat split; try done.
    apply map_eq. intros i.
    destruct (decide (i = userId (params req))) as [->|Hne].
    + by rewrite lookup_alter_eq, lookup_insert_eq, Hcl.
    + by rewrite lookup_alter_ne, lookup_insert_ne.
  - left. rewrite (b64_deposit_client_not_found now req s Hcl). eauto.
Qed.

(** X10.  A deposit either answers 400 and leaves every table as it was,
    or answers "Deposit successful" and replaces one row: the credited
    profile's, whose balance becomes the binary64 sum of the old balance
    and the amount.  Jobs and contracts stay as they were, and with them
    the rows every later deposit adds up. *)
Theorem deposit_changes_one_balance now req s :
  let r := app now POST_balances_deposit req s in
  (∃ e, r.1 = inr (mkResponse 400 (JError e)) ∧ ledger r.2 = ledger s) ∨
  (r.1 = inr deposit_successful ∧
   ∃ cl, profiles (ledger s) !! userId (params req) = Some cl ∧
         profiles (ledger r.2)
           = <[userId (params req) :=
                 set_balance (PrimFloat.add (balance cl) (depositAmount (body req))) cl]>
               (profiles (ledger s)) ∧
         jobs (ledger r.2) = jobs (ledger s) ∧
         contracts (ledger r.2) = contracts (ledger s) ∧
         ∀ u, outstanding_jobs u (ledger r.2) = outstanding_jobs u (ledger s)).
Proof.
  intros r.
  destruct (b64_deposit_outcome now req s)
    as [?|(Hok & cl & Hcl & Hprofiles & Hjobs & Hcontracts)]; [by left|right].
  split; [done|]. exists cl. repeat split; try done.
  intros u. unfold outstanding_jobs. fold r in Hjobs, Hcontracts.
  by rewrite Hjobs, Hcontracts.
Qed.

(** X11.  The ceiling is per call, not cumulative: a deposit does not
    change the rows the ceiling is computed from, so an amount that is
    accepted once is accepted again, and after the two deposits the
    stored balance is the binary64 result of adding the amount twice. *)
Theorem deposit_cap_not_cumulative now now' req s cl :
  profiles (ledger s) !! userId (params req) = Some cl →
  PrimFloat.ltb (maxDepositAmount (userId (params req)) (ledger s))
                (depositAmount (body req)) = false →
  let s1 := (app now POST_balances_deposit req s).2 in
  let s2 := (app now' POST_balances_deposit req s1).2 in
  (app now POST_balances_deposit req s).1 = inr deposit_successful ∧
  (app now' POST_balances_deposit req s1).1 = inr deposit_successful ∧
  balance <$> profiles (ledger s2) !! userId (params req)
    = Some (PrimFloat.add (PrimFloat.add (balance cl) (depositAmount (body req)))
                          (depositAmount (body req))).
Proof.
  intros Hcl Hle s1 s2.
  destruct (b64_deposit_balance now req s cl Hcl Hle) as [Hok Hrow].
  assert (Hmax : maxDepositAmount (userId (params req)) (ledger s1)
                 = maxDepositAmount (userId (params req)) (ledger s)).
  { subst s1. rewrite (b64_deposit_run now req s cl Hcl), Hle. reflexivity. }
  assert (Hle1 : PrimFloat.ltb (maxDepositAmount (userId (params req)) (ledger s1))
                   (depositAmount (body req)) = false) by (by rewrite Hmax).
  destruct (b64_deposit_balance now' req s1 _ Hrow Hle1) as [Hok1 Hrow1].
  split; [done|]. split; [done|]. subst s2. by rewrite Hrow1.
Qed.

Lemma deposit_cap_not_cumulative_witness :
  let req := sample_request 1 1 250%float in
  let s1 := (app sample_now POST_balances_deposit req sample_store).2 in
  let s2 := (app sample_now POST_balances_deposit req s1).2 in
  (app sample_now POST_balances_deposit req sample_store).1 = inr deposit_successful ∧
  (app sample_now POST_balances_deposit req s1).1 = inr deposit_successful ∧
  balance <$> profiles (ledger s2) !! 1%Z
    = Some (PrimFloat.add (PrimFloat.add 1150 250) 250).
Proof.
  apply (deposit_cap_not_cumulative sample_now sample_now
           (sample_request 1 1 250%float) sample_store
           (mkProfile "Harry" "Potter" "Wizard" 1150%float type_client));
    vm_compute; reflexivity.
Defined.

(** X8.  A payment that succeeds takes exactly the paid job out of the
    rows a deposit adds up.  Before the payment the job was a row of the
    contract's client; afterwards the rows of every profile are the rows
    it had before without the paid job, in the same order. *)
Theorem pay_takes_job_off_outstanding now req s j c :
  jobs (ledger s) !! job_id (params req) = Some j →
  contracts (ledger s) !! ContractId j = Some c →
  (app now POST_jobs_pay req s).1 = inr payment_successful →
  (job_id (params req), j) ∈ outstanding_jobs (ClientId c) (ledger s) ∧
  ∀ u, outstanding_jobs u (ledger (app now POST_jobs_pay req s).2)
       = filter (λ r, r.1 ≠ job_id (params req)) (outstanding_jobs u (ledger s)).
Proof.
  intros Hj Hc Hok.
  destruct (b64_pay_success_inv now req s Hok)
    as (j' & c' & cl & co & Hj' & Hp & Hc' & Hid & Hcl & Hco & Hbal & Hl).
  assert (j' = j) as -> by congruence. assert (c' = c) as -> by congruence.
  split.
  { apply outstanding_jobs_elem. eauto. }
  intros u. rewrite Hl.
  apply (sorted_unique fst).
  - apply outstanding_jobs_sorted.
  - apply StronglySorted_filter, outstanding_jobs_sorted.
  - intros [k x]. rewrite list_elem_of_filter, !outstanding_jobs_elem. cbn.
    destruct (decide (k = job_id (params req))) as [->|Hk].
    + rewrite lookup_alter_eq, Hj. cbn. split.
      * intros (Hx & Hpx & _). injection Hx as <-. discriminate.
      * intros [? _]. done.
    + rewrite lookup_alter_ne by done. split; [by split|by intros [_ ?]].
Qed.

Lemma pay_takes_job_off_outstanding_witness :
  (1%Z, mkJob "work" 200%float false None 1)
    ∈ outstanding_jobs 1 (ledger sample_store) ∧
  ∀ u, outstanding_jobs u
         (ledger (app sample_now POST_jobs_pay (sample_request 1 1 0%float)
                    sample_store).2)
       = filter (λ r, r.1 ≠ 1%Z) (outstanding_jobs u (ledger sample_store)).
Proof.
  apply (pay_takes_job_off_outstanding sample_now (sample_request 1 1 0%float)
           sample_store (mkJob "work" 200%float false None 1)
           (mkContract "bla bla bla" in_progress "2020-08-10" 1 5));
    vm_compute; reflexivity.
Defined.

(** The sample payment in rows: client 1 had the jobs 1 and 2 to pay, and
    has job 2 left. *)
Example sample_payment_rows :
  (outstanding_jobs 1 (ledger sample_store)).*1 = [1%Z; 2%Z] ∧
  (outstanding_jobs 1
     (ledger (app sample_now POST_jobs_pay (sample_request 1 1 0%float)
                sample_store).2)).*1 = [2%Z].
Proof. split; vm_compute; reflexivity. Qed.

(** X23.  Deposit and payment compose through the stored balance: after
    a deposit that succeeds, the client's payment of an unpaid job of
    theirs succeeds exactly when the price is not greater than the
    binary64 sum of the old balance and the deposited amount. *)
Theorem deposit_then_pay now now' dreq preq s j c cl co :
  jobs (ledger s) !! job_id (params preq) = Some j →
  paid j = false →
  contracts (ledger s) !! ContractId j = Some c →
  pk (caller preq) = ClientId c →
  userId (params dreq) = ClientId c →
  ClientId c ≠ ContractorId c →
  profiles (ledger s) !! ClientId c = Some cl →
  profiles (ledger s) !! ContractorId c = Some co →
  (app now POST_balances_deposit dreq s).1 = inr deposit_successful →
  let s1 := (app now POST_balances_deposit dreq s).2 in
  (app now' POST_jobs_pay preq s1).1 = inr payment_successful
  ↔ PrimFloat.ltb (PrimFloat.add (balance cl) (depositAmount (body dreq))) (price j)
    = false.
Proof.
  intros Hj Hp Hc Hid Hu Hne Hcl Hco Hok s1.
  destruct (b64_deposit_outcome now dreq s)
    as [(e & He & _) | (_ & cl' & Hcl' & Hprofiles & Hjobs & Hcontracts)].
  { rewrite He in Hok. discriminate. }
  rewrite Hu in Hcl', Hprofiles. assert (cl' = cl) as -> by congruence.
  fold s1 in Hprofiles, Hjobs, Hcontracts.
  assert (Hj1 : jobs (ledger s1) !! job_id (params preq) = Some j) by by rewrite Hjobs.
  assert (Hc1 : contracts (ledger s1) !! ContractId j = Some c) by by rewrite Hcontracts.
  assert (Hcl1 : profiles (ledger s1) !! ClientId c
                 = Some (set_balance (PrimFloat.add (balance cl)
                                        (depositAmount (body dreq))) cl))
    by by rewrite Hprofiles, lookup_insert_eq.
  assert (Hco1 : profiles (ledger s1) !! ContractorId c = Some co)
    by by rewrite Hprofiles, lookup_insert_ne.
  rewrite (b64_pay_funds_checked now' preq s1 j c _ co Hj1 Hp Hc1 Hid Hcl1 Hco1).
  cbn. destruct (PrimFloat.ltb _ (price j)); cbn; split; done.
Qed.

Lemma deposit_then_pay_witness :
  let dreq := sample_request 1 1 250%float in
  let preq := sample_request 1 2 0%float in
  let s1 := (app sample_now POST_balances_deposit dreq sample_store).2 in
  (app sample_now POST_jobs_pay preq s1).1 = inr payment_successful
  ↔ PrimFloat.ltb (PrimFloat.add 1150 250) 800 = false.
Proof.
  apply (deposit_then_pay sample_now sample_now
           (sample_request 1 1 250%float) (sample_request 1 2 0%float) sample_store
           (mkJob "work" 800%float false None 1)
           (mkContract "bla bla bla" in_progress "2020-08-10" 1 5)
           (mkProfile "Harry" "Potter" "Wizard" 1150%float type_client)
           (mkProfile "John" "Lenon" "Musician" 64%float type_contractor)).
  - vm_compute. reflexivity.
  - reflexivity.
  - vm_compute. reflexivity.
  - reflexivity.
  - reflexivity.
  - vm_compute. discriminate.
  - vm_compute. reflexivity.
  - vm_compute. reflexivity.
  - vm_compute. reflexivity.
Defined.

End Binary64Properties.

(** * The listings, row by row *)

Lemma party_contracts_sorted id l : StronglySorted key_lt (party_contracts id l).
Proof. apply StronglySorted_filter, table_rows_sorted. Qed.


(** X14.  Let [listed] hold the contracts that have the caller as client
    or as contractor and are not terminated, each once, in ascending order
    of the contract ids.  [GET /contracts] answers 404 when there is none,
    and otherwise 200 with one row per listed contract in that order, each
    showing its terms and status and nothing else; no row shown is
    terminated. *)
Theorem contracts_listing req l listed :
  let id := pk (caller req) in
  let shown := λ ic : Z * Contract,
    mkRawContract None (Some (terms ic.2)) (Some (status ic.2)) None None None in
  StronglySorted key_lt listed →
  (∀ cid c, (cid, c) ∈ listed
            ↔ contracts l !! cid = Some c ∧
              (ClientId c = id ∨ ContractorId c = id) ∧ status c ≠ terminated) →
  (listed = [] → listing_app GET_contracts req l = inr not_found) ∧
  (listed ≠ [] →
   listing_app GET_contracts req l
   = inr (mkListingResponse 200 (LContracts (shown <$> listed)))) ∧
  (∀ r, r ∈ shown <$> listed → raw_status r ≠ Some terminated).
Proof.
  intros id shown Hsorted Helem.
  assert (Hlisted : party_contracts id l = listed).
  { apply (sorted_unique fst); [apply party_contracts_sorted|done|].
    intros [cid c]. by rewrite party_contracts_elem, Helem. }
  assert (Hrun : listing_app GET_contracts req l
            = inr (if bool_decide (listed = [])
                   then not_found
                   else mkListingResponse 200 (LContracts (shown <$> listed)))).
  { unfold_listing. fold id. rewrite Hlisted, length_fmap.
    destruct listed as [|ic ics]; cbn; [done|].
    by rewrite bool_decide_false. }
  split; [|split].
  - intros Hnil. rewrite Hrun. by rewrite bool_decide_true.
  - intros Hne. rewrite Hrun. by rewrite bool_decide_false.
  - intros r Hr. apply list_elem_of_fmap in Hr as ([cid c] & -> & Hin).
    apply Helem in Hin as (_ & _ & Hst). cbn. congruence.
Qed.

Lemma contracts_listing_witness :
  let listed := [(1%Z, mkContract "bla bla bla" in_progress "2020-08-10" 1 5)] in
  let shown := λ ic : Z * Contract,
    mkRawContract None (Some (terms ic.2)) (Some (status ic.2)) None None None in
  (listed = [] →
   listing_app GET_contracts (sample_request 1 1 0) (ledger terminated_store)
   = inr not_found) ∧
  (listed ≠ [] →
   listing_app GET_contracts (sample_request 1 1 0) (ledger terminated_store)
   = inr (mkListingResponse 200 (LContracts (shown <$> listed)))) ∧
  (∀ r, r ∈ shown <$> listed → raw_status r ≠ Some terminated).
Proof.
  apply (contracts_listing (sample_request 1 1 0) (ledger terminated_store)
           [(1%Z, mkContract "bla bla bla" in_progress "2020-08-10" 1 5)]).
  - change (StronglySorted key_lt (party_contracts 1 (ledger terminated_store))).
    apply party_contracts_sorted.
  - intros cid c.
    change ((cid, c) ∈ party_contracts 1 (ledger terminated_store)
            ↔ contracts (ledger terminated_store) !! cid = Some c ∧
              (ClientId c = 1%Z ∨ ContractorId c = 1%Z) ∧ status c ≠ terminated).
    apply party_contracts_elem.
Defined.



(** The unpaid jobs of the sample client in figures: the job of 200, then
    the job of 800. *)
Example sample_unpaid_jobs_listing :
  ∃ rows,
    listing_app GET_jobs_unpaid (sample_request 1 1 0) (ledger sample_store)
    = inr (mkListingResponse 200 (LJobs rows)) ∧
    raw_price <$> rows = [Some (dec 200 1); Some (dec 800 1)].
Proof.
  eexists. split; [vm_compute; reflexivity|].
  cbn. repeat f_equal; by apply Qc_is_canon.
Qed.

(** * The best-clients report and its limit *)



(** X19.  With both bounds given and a limit the store accepts, the rows
    of the best-clients report come in descending order of [paid], no
    client appears twice, and there are at most [limit] rows; without a
    [limit] parameter the limit is 2. *)
Theorem best_clients_ranking now req s a b n :
  start (query req) = Some a → a ≠ "" →
  end_ (query req) = Some b → b ≠ "" →
  queryLimit_of (query req) = Some n →
  limit_in_range n = true →
  ∃ rows,
    (app now GET_admin_best_clients req s).1 = inr (mkResponse 200 (JRows rows)) ∧
    StronglySorted (λ r r', row_paid r' ≤ row_paid r) rows ∧
    NoDup (row_id <$> rows) ∧
    ((0 ≤ n)%Z → (length rows ≤ Z.to_nat n)%nat) ∧
    (limit (query req) = None → n = 2%Z).
Proof.
  intros Ha Hane Hb Hbne Hn Hrange.
  rewrite (best_clients_run now req s a b n Ha Hane Hb Hbne Hn Hrange). cbn.
  eexists. split; [done|].
  set (kept := sql_limit n (order_by_desc (group_by_sum (best_clients_rows a b (ledger s))))).
  split; [|split; [|split]].
  - apply (StronglySorted_fmap _ sum_desc); [|apply ranking_sorted].
    by intros [[[??]?]?] [[[??]?]?].
  - rewrite <- list_fmap_compose. apply NoDup_fmap_2_strong.
    + intros [[[cid first] last] x] [[[cid' first'] last'] x'] Hx Hx' Hid.
      cbn in Hid. subst cid'.
      pose proof (ranking_elem n _ _ Hx) as [Hkey Hsum].
      pose proof (ranking_elem n _ _ Hx') as [Hkey' Hsum']. cbn in *.
      apply best_clients_rows_keys in Hkey as (cl & Hcl & -> & -> & _).
      apply best_clients_rows_keys in Hkey' as (cl' & Hcl' & -> & -> & _).
      assert (cl' = cl) as -> by congruence. congruence.
    + apply (NoDup_fmap_1 fst). apply ranking_NoDup.
  - intros Hn0. rewrite length_fmap. by apply sql_limit_length.
  - intros Hlimit. unfold queryLimit_of in Hn. rewrite Hlimit in Hn. cbn in Hn.
    congruence.
Qed.

Lemma best_clients_ranking_witness :
  ∃ rows,
    (app sample_now GET_admin_best_clients (sample_request 1 1 0) sample_store).1
      = inr (mkResponse 200 (JRows rows)) ∧
    StronglySorted (λ r r', row_paid r' ≤ row_paid r) rows ∧
    NoDup (row_id <$> rows) ∧
    ((0 ≤ 2)%Z → (length rows ≤ Z.to_nat 2)%nat) ∧
    (limit (query (sample_request 1 1 0)) = None → 2%Z = 2%Z).
Proof.
  apply (best_clients_ranking sample_now (sample_request 1 1 0) sample_store
           "2020-08-01" "2020-08-31" 2); done.
Defined.



(** A limit of twenty nines is read as 10^20, which the store does not
    take as a row count: the report answers 500. *)
Example sample_limit_out_of_range :
  let req := mkRequest (mkInstance 1 (mkProfile "" "" "" 0 type_client)) None
               (mkParams 0 0)
               (mkQueryString (Some "2020-08-01") (Some "2020-08-31")
                              (Some "99999999999999999999"))
               (mkBody 0) in
  parseInt "99999999999999999999" = Some (10 ^ 20)%Z ∧
  limit_in_range (10 ^ 20) = false ∧
  (app sample_now GET_admin_best_clients req sample_store).1
    = inr (mkResponse 500 (JError "Internal Server Error")) ∧
  ledger (app sample_now GET_admin_best_clients req sample_store).2
    = ledger sample_store.
Proof. cbv zeta. repeat split; vm_compute; reflexivity. Qed.
